(** * server.js: rate limiting, session handlers and start-up

    A shallow embedding of [src/server.js].  The module-level mutable
    bindings ([userRateLimits], [connectionStats], [redisConnected]) and
    the per-socket properties the handlers set ([socket.userId],
    [socket.authenticated], the rooms joined) are threaded through the
    handlers as an explicit state.  [Date.now()] is an input: the rate
    limiter takes the value it reads as [now] (milliseconds, an integer), and
    a handler takes the values it reads during one run as a [Clock]. *)

From stdpp Require Import gmap strings list fin_maps.
From Stdlib Require Import ZArith Lia.

Local Open Scope Z_scope.

(** ** The rate limiter (server.js, lines 119-154) *)

Module RateLimiter.

(** The object stored per key in [userRateLimits]. *)
Record RateWindow := mkWindow { count : Z; resetTime : Z }.

Definition CONNECTION_RATE_LIMIT : Z := 5.
Definition MESSAGE_RATE_LIMIT : Z := 10.

(** The template literal [`${userId}_${type}`]. *)
Definition rate_key (userId type : string) : string :=
  userId +:+ "_" +:+ type.

(** [type === 'connection' ? CONNECTION_RATE_LIMIT : MESSAGE_RATE_LIMIT] *)
Definition maxLimit (type : string) : Z :=
  if String.eqb type "connection" then CONNECTION_RATE_LIMIT
  else MESSAGE_RATE_LIMIT.

(** [checkRateLimit(userId, type)] at clock value [now]: the answer and the
    map afterwards.  The source mutates the stored object in place, which is
    an insert at the same key. *)
Definition checkRateLimit (now : Z) (userId type : string)
    (userRateLimits : gmap string RateWindow) : bool * gmap string RateWindow :=
  let key := rate_key userId type in
  match userRateLimits !! key with
  | None =>
      (true, <[key := mkWindow 1 (now + 60000)]> userRateLimits)
  | Some limit =>
      if resetTime limit <? now then
        (true, <[key := mkWindow 1 (now + 60000)]> userRateLimits)
      else if maxLimit type <=? count limit then
        (false, userRateLimits)
      else
        (true, <[key := mkWindow (count limit + 1) (resetTime limit)]> userRateLimits)
  end.

(** A run of checks on one (userId, type) pair at the given clock values:
    the answers in order, and the final map. *)
Fixpoint allow_seq (times : list Z) (userId type : string)
    (m : gmap string RateWindow) : list bool * gmap string RateWindow :=
  match times with
  | [] => ([], m)
  | now :: rest =>
      let '(b, m1) := checkRateLimit now userId type m in
      let '(bs, m2) := allow_seq rest userId type m1 in
      (b :: bs, m2)
  end.

(** No window is running for the key at [now]: the key was never seen, or its
    reset time has passed. *)
Definition window_over (now : Z) (userId type : string)
    (m : gmap string RateWindow) : Prop :=
  match m !! rate_key userId type with
  | None => True
  | Some limit => resetTime limit < now
  end.

(** The units of the budget used in the window running at [now]. *)
Definition units_used (now : Z) (key : string) (m : gmap string RateWindow) : Z :=
  match m !! key with
  | Some limit => if resetTime limit <? now then 0 else count limit
  | None => 0
  end.

End RateLimiter.

(** ** Connection handling (server.js, lines 110-127 and 156-288) *)

Module Server.
Export RateLimiter.

(** [connectionStats]. *)
Record Stats := mkStats {
  total_connections : Z;
  active_connections : Z;
  codes_broadcasted : Z;
  messages_sent : Z;
  start_time : Z
}.

(** [updateStats(metric, delta)] for the names of the five keys of
    [connectionStats], which are the names the handlers pass, and for names
    under which the object has no property at all, which change nothing.
    (A name the object inherits, such as "toString", is outside this
    definition: there the test of line 124 passes.) *)
Definition updateStats (metric : string) (delta : Z) (s : Stats) : Stats :=
  if String.eqb metric "total_connections" then
    mkStats (total_connections s + delta) (active_connections s)
            (codes_broadcasted s) (messages_sent s) (start_time s)
  else if String.eqb metric "active_connections" then
    mkStats (total_connections s) (active_connections s + delta)
            (codes_broadcasted s) (messages_sent s) (start_time s)
  else if String.eqb metric "codes_broadcasted" then
    mkStats (total_connections s) (active_connections s)
            (codes_broadcasted s + delta) (messages_sent s) (start_time s)
  else if String.eqb metric "messages_sent" then
    mkStats (total_connections s) (active_connections s)
            (codes_broadcasted s) (messages_sent s + delta) (start_time s)
  else if String.eqb metric "start_time" then
    mkStats (total_connections s) (active_connections s)
            (codes_broadcasted s) (messages_sent s) (start_time s + delta)
  else s.

(** What the handlers read and write on a socket object.  [userId] and
    [authenticated] are the properties the authenticate handler sets (both
    undefined on a new socket); [rooms] are the rooms joined by [socket.join]
    in this file; [connected] is the transport's flag: a socket that is not
    connected is no longer reached by a broadcast. *)
Record Socket := mkSocket {
  handshake_address : string;
  handshake_query_userId : option string;
  userId : option string;
  authenticated : bool;
  rooms : gset string;
  connected : bool
}.

(** The module-level state.  [sockets] holds, by socket id, the sockets on
    which the connection handler registered its event handlers;
    [subscribed] tells whether the [bonus_codes] callback was installed. *)
Record State := mkState {
  userRateLimits : gmap string RateWindow;
  connectionStats : Stats;
  redisConnected : bool;
  subscribed : bool;
  sockets : gmap string Socket
}.

Definition initial_state (start : Z) : State :=
  mkState ∅ (mkStats 0 0 0 0 start) false false ∅.

(** Payloads of the inbound events, at their documented shapes: a field that
    the client left out is [None]. *)
Record AuthData := mkAuthData { username : option string; token : option string }.
Record ClaimData := mkClaimData { code : string; auto_claim : option bool }.

(** [`${socket.userId}`]: an undefined property prints as "undefined". *)
Definition js_string (v : option string) : string :=
  match v with Some s => s | None => "undefined" end.

(** [a || b] on strings: the empty string is falsy. *)
Definition js_or (a : option string) (b : string) : string :=
  match a with
  | Some s => if String.eqb s "" then b else s
  | None => b
  end.

(** [const userId = socket.handshake.query.userId || socket.id], the constant
    captured by the handlers of one connection. *)
Definition handshake_userId (sid : string) (s : Socket) : string :=
  js_or (handshake_query_userId s) sid.

(** [username && username.length >= 3] *)
Definition valid_username (u : option string) : bool :=
  match u with
  | Some s => negb (String.eqb s "") && (3 <=? String.length s)%nat
  | None => false
  end.

(** The successive values of [Date.now()] during one handler run: [clock 0]
    is the first value read, [clock 1] the second, and so on. *)
Definition Clock : Type := nat -> Z.

(** A run during which the clock shows [t] all along. *)
Definition tick (t : Z) : Clock := fun _ => t.

(** [const { code, auto_claim = false } = data] *)
Definition auto_claim_or_false (data : ClaimData) : bool :=
  match auto_claim data with Some b => b | None => false end.

Section Handlers.

(** Parsed JSON values are opaque to the handlers: [JSON_parse] is
    [JSON.parse], [None] when it throws, and [JSON_is_null] tells whether a
    parsed value is [null].  [env_SERVER_ID] is [process.env.SERVER_ID]. *)
Variable JSON : Type.
Variable JSON_parse : string -> option JSON.
Variable JSON_is_null : JSON -> bool.
Variable env_SERVER_ID : option string.

Definition server_id : string := js_or env_SERVER_ID "main".

(** The outbound events. *)
Inductive OutEvent :=
| welcome (server : string) (redis_enabled : bool) (connection_time : Z)
          (messages_per_minute connections_per_minute : Z)
| authenticated_ev (user : string) (server : string) (time : Z)
| auth_error (message : string)
| claim_received (claimed : string) (user : option string) (time : Z) (auto : bool)
| code_claimed (claimed : string) (claimed_by : option string) (time : Z)
| bonus_code (payload : JSON) (server : string) (broadcast_time : Z)
| recent_codes (codes : list JSON) (count : nat)
| error_ev (message : string).

(** What a handler run does to the outside: events handed to the transport
    for one socket, a forced close, the answer to a ping, and operations on
    the bus clients. *)
Inductive Effect :=
| Emit (to : string) (ev : OutEvent)
| ForceDisconnect (sid : string)
| PingAck (sid : string) (server_time : Z) (server : string)
| CallSendRecentCodes (sid : string)
| BusQuit.

(** [socket.broadcast.emit(ev)]: every connected socket but the sender. *)
Definition broadcast_emit (sender : string) (ev : OutEvent) (st : State) : list Effect :=
  (fun p : string * Socket => Emit p.1 ev) <$>
    map_to_list (filter (fun p : string * Socket => p.1 ≠ sender ∧ connected p.2 = true)
                        (sockets st)).

(** [io.emit(ev)]: every connected socket. *)
Definition io_emit (ev : OutEvent) (st : State) : list Effect :=
  (fun p : string * Socket => Emit p.1 ev) <$>
    map_to_list (filter (fun p : string * Socket => connected p.2 = true) (sockets st)).

(** [io.on('connection', ...)] for a new socket [sid]. *)
Definition on_connection (clock : Clock) (sid clientIp : string)
    (query_userId : option string) (st : State) : State * list Effect :=
  let '(ok, rl) := checkRateLimit (clock 0%nat) clientIp "connection"
                                  (userRateLimits st) in
  if ok then
    let stats := updateStats "active_connections" 1
                   (updateStats "total_connections" 1 (connectionStats st)) in
    let s := mkSocket clientIp query_userId None false ∅ true in
    (mkState rl stats (redisConnected st) (subscribed st) (<[sid := s]> (sockets st)),
     [Emit sid (welcome server_id (redisConnected st) (clock 1%nat)
                        MESSAGE_RATE_LIMIT CONNECTION_RATE_LIMIT)])
  else
    (mkState rl (connectionStats st) (redisConnected st) (subscribed st) (sockets st),
     [Emit sid (error_ev "Connection rate limit exceeded"); ForceDisconnect sid]).

(** [socket.on('ping', callback)] *)
Definition on_ping (clock : Clock) (sid : string) (callback_is_function : bool)
    (st : State) : State * list Effect :=
  (st, if callback_is_function then [PingAck sid (clock 0%nat) server_id] else []).

(** [socket.on('authenticate', data)] on socket [sid] with record [s]. *)
Definition on_authenticate (clock : Clock) (sid : string) (s : Socket) (data : AuthData)
    (st : State) : State * list Effect :=
  let '(ok, rl) := checkRateLimit (clock 0%nat) (handshake_userId sid s) "message"
                                  (userRateLimits st) in
  if negb ok then
    (mkState rl (connectionStats st) (redisConnected st) (subscribed st) (sockets st),
     [Emit sid (error_ev "Message rate limit exceeded")])
  else if valid_username (username data) then
    let name := js_string (username data) in
    let s' := mkSocket (handshake_address s) (handshake_query_userId s)
                       (Some name) true ({[ "user_" +:+ name ]} ∪ rooms s)
                       (connected s) in
    (mkState rl (connectionStats st) (redisConnected st) (subscribed st)
             (<[sid := s']> (sockets st)),
     Emit sid (authenticated_ev name server_id (clock 1%nat))
       :: (if redisConnected st then [CallSendRecentCodes sid] else []))
  else
    (mkState rl (connectionStats st) (redisConnected st) (subscribed st) (sockets st),
     [Emit sid (auth_error "Invalid username")]).

(** [socket.on('claim_code', data)] *)
Definition on_claim_code (clock : Clock) (sid : string) (s : Socket) (data : ClaimData)
    (st : State) : State * list Effect :=
  if negb (authenticated s) then
    (st, [Emit sid (error_ev "Authentication required")])
  else
    let '(ok, rl) := checkRateLimit (clock 0%nat) (js_string (userId s)) "message"
                                    (userRateLimits st) in
    if negb ok then
      (mkState rl (connectionStats st) (redisConnected st) (subscribed st) (sockets st),
       [Emit sid (error_ev "Rate limit exceeded - slow down!")])
    else
      let auto := auto_claim_or_false data in
      (mkState rl (updateStats "messages_sent" 1 (connectionStats st))
               (redisConnected st) (subscribed st) (sockets st),
       Emit sid (claim_received (code data) (userId s) (clock 1%nat) auto)
         :: broadcast_emit sid (code_claimed (code data) (userId s) (clock 2%nat)) st).

(** [socket.on('disconnect', reason)] *)
Definition on_disconnect (st : State) : State * list Effect :=
  (mkState (userRateLimits st)
           (updateStats "active_connections" (-1) (connectionStats st))
           (redisConnected st) (subscribed st) (sockets st),
   []).

(** The callback given to [subClient.subscribe('bonus_codes', ...)].  A
    message that does not parse, and one that parses to [null] (reading
    [codeData.code] throws), end in the [catch], which only logs. *)
Definition on_bus_message (clock : Clock) (message : string) (st : State)
    : State * list Effect :=
  match JSON_parse message with
  | Some codeData =>
      if JSON_is_null codeData then (st, [])
      else
        (mkState (userRateLimits st)
                 (updateStats "codes_broadcasted" 1 (connectionStats st))
                 (redisConnected st) (subscribed st) (sockets st),
         io_emit (bonus_code codeData server_id (clock 0%nat)) st)
  | None => (st, [])
  end.

(** [pubClient.lRange(key, start, stop)] of the bus client, for indices that
    are not negative: the entries stored at positions [start] to [stop], both
    ends included, in stored order. *)
Definition lRange (stored : list string) (start stop : nat) : list string :=
  take (S stop - start) (drop start stored).

(** [sendRecentCodes(socket)].  [stored] is the list kept by the bus under
    [recent_codes] when the read is answered, [None] when the read fails;
    a failed read and a failed parse both end in the [catch]. *)
Definition sendRecentCodes (stored : option (list string)) (sid : string) : list Effect :=
  match stored with
  | None => []
  | Some l =>
      let recentCodes := lRange l 0 9 in
      if (0 <? length recentCodes)%nat then
        match mapM JSON_parse recentCodes with
        | Some codes => [Emit sid (recent_codes codes (length recentCodes))]
        | None => []
        end
      else []
  end.

(** The events the transport and the bus hand to the code above. *)
Inductive InEvent :=
| Connection (sid clientIp : string) (query_userId : option string)
| Ping (sid : string) (callback_is_function : bool)
| Authenticate (sid : string) (data : AuthData)
| ClaimCode (sid : string) (data : ClaimData)
| Disconnect (sid : string)
| SocketError (sid : string)
| BusMessage (message : string).

(** The transport clears [connected] before it runs the disconnect handler. *)
Definition mark_disconnected (sid : string) (s : Socket) (st : State) : State :=
  mkState (userRateLimits st) (connectionStats st) (redisConnected st) (subscribed st)
          (<[sid := mkSocket (handshake_address s) (handshake_query_userId s)
                             (userId s) (authenticated s) (rooms s) false]> (sockets st)).

(** One handler run.  A named event or a disconnect for [sid] runs the handler
    that the connection handler registered on that socket, whenever it is
    invoked; a socket that was turned away has no handlers. *)
Definition step (clock : Clock) (e : InEvent) (st : State) : State * list Effect :=
  match e with
  | Connection sid clientIp q => on_connection clock sid clientIp q st
  | Ping sid cb =>
      match sockets st !! sid with
      | Some _ => on_ping clock sid cb st
      | None => (st, [])
      end
  | Authenticate sid data =>
      match sockets st !! sid with
      | Some s => on_authenticate clock sid s data st
      | None => (st, [])
      end
  | ClaimCode sid data =>
      match sockets st !! sid with
      | Some s => on_claim_code clock sid s data st
      | None => (st, [])
      end
  | Disconnect sid =>
      match sockets st !! sid with
      | Some s => on_disconnect (mark_disconnected sid s st)
      | None => (st, [])
      end
  | SocketError sid => (st, [])
  | BusMessage message =>
      if subscribed st then on_bus_message clock message st else (st, [])
  end.

(** A trace of handler runs, each with its clock. *)
Fixpoint run (tr : list (Clock * InEvent)) (st : State) : State * list Effect :=
  match tr with
  | [] => (st, [])
  | (clock, e) :: rest =>
      let '(st1, out1) := step clock e st in
      let '(st2, out2) := run rest st1 in
      (st2, out1 ++ out2)
  end.

(** What the counting of connections needs from the transport, which is not
    part of this file: a new connection comes with a socket id that is not in
    use, and the disconnect signal is given for a connected socket only, so
    once per connection. *)
Definition deliverable (e : InEvent) (st : State) : bool :=
  match e with
  | Connection sid _ _ =>
      match sockets st !! sid with Some _ => false | None => true end
  | Disconnect sid =>
      match sockets st !! sid with Some s => connected s | None => false end
  | _ => true
  end.

Fixpoint transport_ok (tr : list (Clock * InEvent)) (st : State) : Prop :=
  match tr with
  | [] => True
  | (clock, e) :: rest =>
      deliverable e st = true ∧ transport_ok rest (step clock e st).1
  end.

(** The connections that were admitted and have not been disconnected. *)
Definition live_connections (st : State) : nat :=
  size (filter (fun p : string * Socket => connected p.2 = true) (sockets st)).

(** ** Start-up and monitoring (server.js, lines 70-108 and 290-352) *)

(** How the three awaited bus calls of [setupRedisAdapter] end: [true] when
    the promise resolves, [false] when it rejects. *)
Record BusEnv := mkBusEnv {
  pub_connect_ok : bool;
  sub_connect_ok : bool;
  subscribe_ok : bool
}.

(** [setupRedisAdapter()]: the first rejected await jumps to the [catch],
    which only logs. *)
Definition setupRedisAdapter (bus : BusEnv) (st : State) : State :=
  if pub_connect_ok bus then
    if sub_connect_ok bus then
      let st1 := mkState (userRateLimits st) (connectionStats st) true
                         (subscribed st) (sockets st) in
      if subscribe_ok bus then
        mkState (userRateLimits st1) (connectionStats st1) (redisConnected st1)
                true (sockets st1)
      else st1
    else st
  else st.

Inductive Process :=
| Running (st : State)
| Exited (exit_code : Z).

(** [startServer()]: [listen_throws] tells whether [server.listen] throws,
    the one way into the [catch] that ends the process. *)
Definition startServer (bus : BusEnv) (listen_throws : bool) (st : State) : Process :=
  let st1 := setupRedisAdapter bus st in
  if listen_throws then Exited 1 else Running st1.

(** The SIGTERM handler, once the listener has closed. *)
Definition on_SIGTERM (st : State) : list Effect * Process :=
  (if redisConnected st then [BusQuit; BusQuit] else [], Exited 0).

(** The body of [GET /health]. *)
Record Health := mkHealth {
  status : string;
  uptime : Z;
  redis_connected : bool;
  stats : Stats;
  health_server_id : string
}.

Definition health (now : Z) (st : State) : Health :=
  mkHealth "healthy" (now - start_time (connectionStats st)) (redisConnected st)
           (connectionStats st) server_id.

(** An effect that uses the bus clients. *)
Definition is_bus_operation (e : Effect) : bool :=
  match e with
  | CallSendRecentCodes _ | BusQuit => true
  | _ => false
  end.

(** The state in which the listener starts, and the states the server can be
    in afterwards. *)
Definition started (bus : BusEnv) (start : Z) : State :=
  setupRedisAdapter bus (initial_state start).

Definition reachable (st : State) : Prop :=
  exists bus start tr, st = (run tr (started bus start)).1.

(** What each handler run of a trace emits, run by run. *)
Fixpoint outputs (tr : list (Clock * InEvent)) (st : State) : list (list Effect) :=
  match tr with
  | [] => []
  | (clock, e) :: rest => (step clock e st).2 :: outputs rest (step clock e st).1
  end.

(** [claim_code] events of one socket, each with its clock. *)
Definition claims (sid : string) (l : list (Clock * ClaimData))
    : list (Clock * InEvent) :=
  (fun p : Clock * ClaimData => (p.1, ClaimCode sid p.2)) <$> l.

(** The per-socket facts that hold in every reachable state: a socket that
    is in a room is authenticated, and an authenticated socket has an
    identity. *)
Definition socket_ok (s : Socket) : Prop :=
  (forall room, room ∈ rooms s -> authenticated s = true) /\
  (authenticated s = true -> is_Some (userId s)).

Definition sockets_ok (st : State) : Prop :=
  map_Forall (fun (_ : string) (s : Socket) => socket_ok s) (sockets st).

(** [active_connections] agrees with the sockets that are connected. *)
Definition counted (st : State) : Prop :=
  active_connections (connectionStats st) = Z.of_nat (live_connections st).

(** ** Further notions used in the properties below *)

(** The two categories the handlers pass to [checkRateLimit]. *)
Definition used_type (t : string) : Prop := t = "connection" \/ t = "message".

(** Every stored count is at least 1, at most [MESSAGE_RATE_LIMIT], and at
    most [CONNECTION_RATE_LIMIT] under a key of the category 'connection'. *)
Definition counts_within_limits (m : gmap string RateWindow) : Prop :=
  forall key w, m !! key = Some w ->
    1 <= count w <= MESSAGE_RATE_LIMIT /\
    (forall ip, key = rate_key ip "connection" -> count w <= CONNECTION_RATE_LIMIT).

(** [connection] events from one address, each with its clock, its socket id
    and the [userId] of its handshake query. *)
Definition connections (ip : string) (l : list (Clock * (string * option string)))
    : list (Clock * InEvent) :=
  (fun p : Clock * (string * option string) => (p.1, Connection p.2.1 ip p.2.2)) <$> l.

(** The effects of a connection that is admitted, and of one that is turned
    away. *)
Definition admitted_connection (st : State) (p : Clock * (string * option string))
    : list Effect :=
  [Emit p.2.1 (welcome server_id (redisConnected st) (p.1 1%nat)
                        MESSAGE_RATE_LIMIT CONNECTION_RATE_LIMIT)].

Definition refused_connection (p : Clock * (string * option string)) : list Effect :=
  [Emit p.2.1 (error_ev "Connection rate limit exceeded"); ForceDisconnect p.2.1].

(** The events whose handler calls [checkRateLimit]. *)
Definition rate_checked (e : InEvent) : bool :=
  match e with
  | Connection _ _ _ | Authenticate _ _ | ClaimCode _ _ => true
  | _ => false
  end.

(** The socket an event belongs to. *)
Definition event_socket (e : InEvent) : option string :=
  match e with
  | Connection sid _ _ | Ping sid _ | Authenticate sid _ | ClaimCode sid _
  | Disconnect sid | SocketError sid => Some sid
  | BusMessage _ => None
  end.

(** Kinds of outbound events, for counting and for telling them apart. *)
Definition is_welcome (e : Effect) : bool :=
  match e with Emit _ (welcome _ _ _ _ _) => true | _ => false end.

Definition is_claim_received (e : Effect) : bool :=
  match e with Emit _ (claim_received _ _ _ _) => true | _ => false end.

Definition is_bonus_code (e : Effect) : bool :=
  match e with Emit _ (bonus_code _ _ _) => true | _ => false end.

Definition is_error (e : Effect) : bool :=
  match e with Emit _ (error_ev _) => true | _ => false end.

Definition count_effects (p : Effect -> bool) (out : list Effect) : Z :=
  Z.of_nat (length (List.filter p out)).

(** The body of [GET /stats]. *)
Record StatsReport := mkStatsReport {
  report_counters : Stats;
  report_uptime : Z;
  redis_status : bool;
  connections_per_minute : Z;
  messages_per_minute : Z
}.

Definition stats_endpoint (now : Z) (st : State) : StatsReport :=
  mkStatsReport (connectionStats st) (now - start_time (connectionStats st))
                (redisConnected st) CONNECTION_RATE_LIMIT MESSAGE_RATE_LIMIT.

(** What holds of the identity and the rooms of a socket in every reachable
    state. *)
Definition socket_named (s : Socket) : Prop :=
  (forall name, userId s = Some name ->
     authenticated s = true /\ (3 <= String.length name)%nat /\
     "user_" +:+ name ∈ rooms s) /\
  (forall room, room ∈ rooms s ->
     exists name, room = "user_" +:+ name /\ (3 <= String.length name)%nat).

(** [claim_code] events of several sockets, each with its clock and its
    socket id. *)
Definition claims_of (l : list (Clock * (string * ClaimData))) : list (Clock * InEvent) :=
  (fun p : Clock * (string * ClaimData) => (p.1, ClaimCode p.2.1 p.2.2)) <$> l.

(** Socket [sid] is registered and authenticated under [identity]. *)
Definition authenticated_as (st : State) (identity sid : string) : Prop :=
  exists s, sockets st !! sid = Some s /\ authenticated s = true /\
            userId s = Some identity.

(** The effects of an accepted and of a refused claim of a socket with the
    given identity. *)
Definition accepted_claim_of (st : State) (identity : string)
    (p : Clock * (string * ClaimData)) : list Effect :=
  Emit p.2.1 (claim_received (code p.2.2) (Some identity) (p.1 1%nat)
                             (auto_claim_or_false p.2.2))
    :: broadcast_emit p.2.1 (code_claimed (code p.2.2) (Some identity) (p.1 2%nat)) st.

Definition refused_claim_of (p : Clock * (string * ClaimData)) : list Effect :=
  [Emit p.2.1 (error_ev "Rate limit exceeded - slow down!")].

(** ** Notions used by the revised statements *)

(** The rooms the transport has a socket in: the room of its own id, which
    the transport puts every socket in when it connects, and the rooms the
    server joined it to with [socket.join]. *)
Definition transport_rooms (sid : string) (s : Socket) : gset string :=
  {[ sid ]} ∪ rooms s.

(** The key under which the handler of an event calls [checkRateLimit] in
    state [st], if it gets that far. *)
Definition checked_key (e : InEvent) (st : State) : option string :=
  match e with
  | Connection _ clientIp _ => Some (rate_key clientIp "connection")
  | Authenticate sid _ =>
      match sockets st !! sid with
      | Some s => Some (rate_key (handshake_userId sid s) "message")
      | None => None
      end
  | ClaimCode sid _ =>
      match sockets st !! sid with
      | Some s =>
          if authenticated s then Some (rate_key (js_string (userId s)) "message")
          else None
      | None => None
      end
  | _ => None
  end.

(** A trace none of whose handler runs checks the rate limit under [key]. *)
Fixpoint key_untouched (key : string) (tr : list (Clock * InEvent)) (st : State) : Prop :=
  match tr with
  | [] => True
  | (clock, e) :: rest =>
      checked_key e st ≠ Some key /\ key_untouched key rest (step clock e st).1
  end.

(** A claim (its clock, its socket id, its payload) and the handler runs that
    follow it before the next claim. *)
Definition Round : Type := (Clock * (string * ClaimData)) * list (Clock * InEvent).

Definition round_claim (r : Round) : InEvent := ClaimCode r.1.2.1 r.1.2.2.

(** The state after the claim of a round and the runs that follow it. *)
Definition after_round (r : Round) (st : State) : State :=
  (run r.2 (step r.1.1 (round_claim r) st).1).1.

(** The whole trace of a list of rounds. *)
Fixpoint rounds_trace (l : list Round) : list (Clock * InEvent) :=
  match l with
  | [] => []
  | r :: rest => (r.1.1, round_claim r) :: r.2 ++ rounds_trace rest
  end.

(** What the claims of the rounds are answered with, claim by claim. *)
Fixpoint claim_replies (l : list Round) (st : State) : list (list Effect) :=
  match l with
  | [] => []
  | r :: rest =>
      (step r.1.1 (round_claim r) st).2 :: claim_replies rest (after_round r st)
  end.

(** Every claim of the rounds is made by a socket that is authenticated under
    [identity] when it claims, and no run between the claims checks the rate
    limit under the key of that identity. *)
Fixpoint rounds_of (identity : string) (l : list Round) (st : State) : Prop :=
  match l with
  | [] => True
  | r :: rest =>
      authenticated_as st identity r.1.2.1 /\
      key_untouched (rate_key identity "message") r.2 (step r.1.1 (round_claim r) st).1 /\
      rounds_of identity rest (after_round r st)
  end.

(** The answers when the first [n] claims are accepted and the others are
    refused: an accepted claim is broadcast to the sockets that are connected
    when it is made. *)
Fixpoint expected_replies (identity : string) (n : nat) (l : list Round) (st : State)
    : list (list Effect) :=
  match l with
  | [] => []
  | r :: rest =>
      match n with
      | O => refused_claim_of r.1
      | S _ => accepted_claim_of st identity r.1
      end :: expected_replies identity (pred n) rest (after_round r st)
  end.

(** The transport in front of the handlers: it hands over a connection only
    with a socket id that is not in use and a disconnect signal only for a
    socket that is connected; what it does not hand over runs no handler. *)
Definition deliver (clock : Clock) (e : InEvent) (st : State) : State * list Effect :=
  if deliverable e st then step clock e st else (st, []).

Fixpoint run_delivered (tr : list (Clock * InEvent)) (st : State) : State * list Effect :=
  match tr with
  | [] => (st, [])
  | (clock, e) :: rest =>
      let '(st1, out1) := deliver clock e st in
      let '(st2, out2) := run_delivered rest st1 in
      (st2, out1 ++ out2)
  end.


(** ** Facts about the rate limiter *)

Lemma checkRateLimit_new now u t (m : gmap string RateWindow) :
  window_over now u t m ->
  checkRateLimit now u t m = (true, <[rate_key u t := mkWindow 1 (now + 60000)]> m).
Proof.
  unfold window_over, checkRateLimit.
  destruct (m !! rate_key u t) as [w|]; [|done].
  intros Hlt. by apply Z.ltb_lt in Hlt as ->.
Qed.

Lemma checkRateLimit_counts now u t (m : gmap string RateWindow) c r :
  m !! rate_key u t = Some (mkWindow c r) -> now <= r -> c < maxLimit t ->
  checkRateLimit now u t m = (true, <[rate_key u t := mkWindow (c + 1) r]> m).
Proof.
  intros Hw Hnow Hc. unfold checkRateLimit. rewrite Hw. simpl.
  destruct (Z.ltb_spec r now); [lia|].
  destruct (Z.leb_spec (maxLimit t) c); [lia|done].
Qed.

Lemma checkRateLimit_full now u t (m : gmap string RateWindow) c r :
  m !! rate_key u t = Some (mkWindow c r) -> now <= r -> maxLimit t <= c ->
  checkRateLimit now u t m = (false, m).
Proof.
  intros Hw Hnow Hc. unfold checkRateLimit. rewrite Hw. simpl.
  destruct (Z.ltb_spec r now); [lia|].
  destruct (Z.leb_spec (maxLimit t) c); [done|lia].
Qed.

(** A refusal never writes to the map. *)
Lemma checkRateLimit_false_same now u t (m : gmap string RateWindow) :
  (checkRateLimit now u t m).1 = false -> (checkRateLimit now u t m).2 = m.
Proof.
  unfold checkRateLimit. destruct (m !! rate_key u t) as [w|]; [|done].
  destruct (resetTime w <? now); [done|].
  by destruct (maxLimit t <=? count w).
Qed.

(** Inside a running window with [n] units left, the next [n] checks pass and
    all later ones are refused; the window ends up full with its reset time
    untouched. *)
Lemma allow_seq_running u t r : forall (times : list Z) (n k : nat) c
    (m : gmap string RateWindow),
  m !! rate_key u t = Some (mkWindow c r) ->
  c + Z.of_nat n = maxLimit t ->
  length times = (n + k)%nat ->
  Forall (fun now => now <= r) times ->
  (allow_seq times u t m).1 = replicate n true ++ replicate k false /\
  (allow_seq times u t m).2 !! rate_key u t = Some (mkWindow (maxLimit t) r).
Proof.
  induction times as [|now rest IH]; intros n k c m Hw Hc Hlen Hall.
  - destruct n, k; try discriminate. simpl. split; [done|].
    rewrite Hw. do 2 f_equal. lia.
  - inversion Hall as [|? ? Hnow Hrest]; subst. simpl.
    destruct n as [|n].
    + destruct k as [|k]; [discriminate|].
      rewrite (checkRateLimit_full now u t m c r) by (done || lia).
      destruct (IH 0%nat k c m) as [IH1 IH2]; try done; [simpl in *; lia|].
      destruct (allow_seq rest u t m) as [bs m2]. simpl in *. by rewrite IH1.
    + rewrite (checkRateLimit_counts now u t m c r) by (done || lia).
      destruct (IH n k (c + 1) (<[rate_key u t := mkWindow (c + 1) r]> m))
        as [IH1 IH2]; try done.
      * by rewrite lookup_insert_eq.
      * lia.
      * simpl in *; lia.
      * destruct (allow_seq rest u t _) as [bs m2]. simpl in *. by rewrite IH1.
Qed.

Lemma maxLimit_pos t : 1 <= maxLimit t.
Proof. unfold maxLimit. by destruct (String.eqb t "connection"). Qed.

(** Starting a window and staying inside it. *)
Lemma allow_seq_from_new u t now : forall (rest : list Z) (k : nat)
    (m : gmap string RateWindow),
  window_over now u t m ->
  length rest = (Z.to_nat (maxLimit t) - 1 + k)%nat ->
  Forall (fun x => x <= now + 60000) rest ->
  (allow_seq (now :: rest) u t m).1
    = replicate (Z.to_nat (maxLimit t)) true ++ replicate k false /\
  (allow_seq (now :: rest) u t m).2 !! rate_key u t
    = Some (mkWindow (maxLimit t) (now + 60000)).
Proof.
  intros rest k m Hover Hlen Hall. simpl.
  rewrite checkRateLimit_new by done.
  pose proof (maxLimit_pos t) as Hpos.
  destruct (allow_seq_running u t (now + 60000) rest
              (Z.to_nat (maxLimit t) - 1)%nat k 1
              (<[rate_key u t := mkWindow 1 (now + 60000)]> m)) as [H1 H2];
    try done.
  - by rewrite lookup_insert_eq.
  - lia.
  - destruct (allow_seq rest u t _) as [bs m2]. simpl in *. split; [|done].
    rewrite H1. replace (Z.to_nat (maxLimit t)) with (S (Z.to_nat (maxLimit t) - 1)) at 2 by lia.
    done.
Qed.

(** C1: from a state where no window is running for the key, [L] checks that
    fall inside the window opened by the first one all pass and check [L+1]
    is refused, with [L] = 5 for 'connection' and 10 for 'message'; a check
    after the reset time passes again and stores a new window with count 1
    and reset time now + 60s. *)
Theorem C1_fixed_window_budget u t (m : gmap string RateWindow)
    (first : Z) (rest : list Z) (later : Z) :
  window_over first u t m ->
  length rest = Z.to_nat (maxLimit t) ->
  Forall (fun now => now <= first + 60000) rest ->
  first + 60000 < later ->
  maxLimit "connection" = 5 /\ maxLimit "message" = 10 /\
  (allow_seq (first :: rest) u t m).1
    = replicate (Z.to_nat (maxLimit t)) true ++ [false] /\
  let m' := (allow_seq (first :: rest) u t m).2 in
  (checkRateLimit later u t m').1 = true /\
  (checkRateLimit later u t m').2 !! rate_key u t
    = Some (mkWindow 1 (later + 60000)).
Proof.
  intros Hover Hlen Hall Hlater.
  pose proof (maxLimit_pos t) as Hpos.
  destruct (allow_seq_from_new u t first rest 1 m) as [H1 H2]; try done; [lia|].
  repeat split; try done.
  - rewrite checkRateLimit_new; [done|].
    unfold window_over. rewrite H2. simpl. lia.
  - rewrite checkRateLimit_new.
    + simpl. by rewrite lookup_insert_eq.
    + unfold window_over. rewrite H2. simpl. lia.
Qed.


(** C2: a refused check leaves the map, and so the stored count and reset
    time, as they were; once the window is over the whole budget is there
    again. *)
Theorem C2_refusal_consumes_nothing now u t (m : gmap string RateWindow) :
  (checkRateLimit now u t m).1 = false ->
  (checkRateLimit now u t m).2 = m /\
  forall (later : Z) (rest : list Z),
    window_over later u t m ->
    S (length rest) = Z.to_nat (maxLimit t) ->
    Forall (fun x => x <= later + 60000) rest ->
    (allow_seq (later :: rest) u t (checkRateLimit now u t m).2).1
      = replicate (Z.to_nat (maxLimit t)) true.
Proof.
  intros Hno. pose proof (checkRateLimit_false_same now u t m Hno) as Hsame.
  split; [done|]. intros later rest Hover Hlen Hall. rewrite Hsame.
  destruct (allow_seq_from_new u t later rest 0 m) as [H1 _]; try done; [lia|].
  rewrite H1. simpl. by rewrite app_nil_r.
Qed.

(** ** Facts about the handlers *)

Ltac break_check :=
  match goal with
  | |- context [checkRateLimit ?n ?u ?t ?m] =>
      let ok := fresh "ok" in let rl := fresh "rl" in let E := fresh "Echeck" in
      destruct (checkRateLimit n u t m) as [ok rl] eqn:E; destruct ok; simpl
  end.

Lemma step_sockets_ok clock e st : sockets_ok st -> sockets_ok (step clock e st).1.
Proof.
  unfold sockets_ok. intros Hok.
  destruct e as [sid ip q|sid cb|sid data|sid data|sid|sid|msg]; simpl.
  - unfold on_connection. break_check; [|done].
    apply map_Forall_insert_2; [|done].
    split; simpl; [set_solver|done].
  - by destruct (sockets st !! sid).
  - destruct (sockets st !! sid) as [s|] eqn:Hs; [|done].
    unfold on_authenticate. break_check; [|done].
    destruct (valid_username (username data)); simpl; [|done].
    apply map_Forall_insert_2; [|done]. split; simpl; eauto.
  - destruct (sockets st !! sid) as [s|] eqn:Hs; [|done].
    unfold on_claim_code. destruct (authenticated s); simpl; [|done].
    by break_check.
  - destruct (sockets st !! sid) as [s|] eqn:Hs; [|done]. simpl.
    apply map_Forall_insert_2; [|done].
    destruct (Hok sid s Hs) as [H1 H2]. by split.
  - done.
  - destruct (subscribed st); [|done]. unfold on_bus_message.
    destruct (JSON_parse msg) as [v|]; [|done]. by destruct (JSON_is_null v).
Qed.

Lemma run_sockets_ok tr : forall st, sockets_ok st -> sockets_ok (run tr st).1.
Proof.
  induction tr as [|[clock e] rest IH]; intros st Hok; [done|]. simpl.
  pose proof (step_sockets_ok clock e st Hok) as Hstep.
  destruct (step clock e st) as [st1 out1]. specialize (IH st1 Hstep).
  by destruct (run rest st1).
Qed.

Lemma started_sockets bus start : sockets (started bus start) = ∅.
Proof.
  unfold started, setupRedisAdapter.
  by destruct (pub_connect_ok bus), (sub_connect_ok bus), (subscribe_ok bus).
Qed.

Lemma reachable_sockets_ok st : reachable st -> sockets_ok st.
Proof.
  intros (bus & start & tr & ->). apply run_sockets_ok.
  unfold sockets_ok. rewrite started_sockets. apply map_Forall_empty.
Qed.

(** C3, as the code has it: in every reachable state a socket that is in a
    room other than the room of its own id (the one room the transport puts
    it in when it connects) is authenticated: the server joins a socket to no
    room before it has authenticated, so until then the room of its own id is
    the only room it is in; and [claim_code] on a socket that has not
    authenticated emits the one event error "Authentication required" to it
    and leaves the whole state as it was. *)
Theorem C3_rooms_and_claims_need_authentication st :
  reachable st ->
  (forall sid s room,
      sockets st !! sid = Some s -> room ∈ transport_rooms sid s -> room ≠ sid ->
      authenticated s = true) /\
  (forall sid s,
      sockets st !! sid = Some s -> authenticated s = false ->
      rooms s = ∅ /\ transport_rooms sid s = {[ sid ]}) /\
  (forall clock sid s data,
      sockets st !! sid = Some s -> authenticated s = false ->
      step clock (ClaimCode sid data) st
        = (st, [Emit sid (error_ev "Authentication required")])).
Proof.
  intros Hreach. pose proof (reachable_sockets_ok st Hreach) as Hok.
  assert (forall sid s, sockets st !! sid = Some s -> authenticated s = false ->
                        rooms s = ∅) as Hnone.
  { intros sid s Hs Hno. destruct (Hok sid s Hs) as [H1 _].
    apply set_eq. intros room. split; [|set_solver].
    intros Hin. specialize (H1 room Hin). congruence. }
  split; [|split].
  - intros sid s room Hs Hin Hne. destruct (Hok sid s Hs) as [H1 _].
    unfold transport_rooms in Hin.
    apply elem_of_union in Hin as [Hin%elem_of_singleton | Hin]; [done|].
    by apply (H1 room).
  - intros sid s Hs Hno. split; [by eapply Hnone|].
    unfold transport_rooms. rewrite (Hnone sid s Hs Hno).
    by rewrite (right_id_L ∅ (∪)).
  - intros clock sid s data Hs Hno. simpl. rewrite Hs.
    unfold on_claim_code. by rewrite Hno.
Qed.

Lemma broadcast_emit_reaches sender ev st sid' s' :
  sid' ≠ sender -> sockets st !! sid' = Some s' -> connected s' = true ->
  Emit sid' ev ∈ broadcast_emit sender ev st.
Proof.
  intros Hne Hs Hconn. unfold broadcast_emit.
  apply list_elem_of_fmap. exists (sid', s'). split; [done|].
  apply elem_of_map_to_list. by apply map_lookup_filter_Some.
Qed.

Lemma broadcast_emit_others sender ev st e :
  e ∈ broadcast_emit sender ev st ->
  exists sid' s', e = Emit sid' ev /\ sid' ≠ sender /\
                  sockets st !! sid' = Some s' /\ connected s' = true.
Proof.
  unfold broadcast_emit. intros Hin.
  apply list_elem_of_fmap in Hin as ([sid' s'] & -> & Hin).
  apply elem_of_map_to_list, map_lookup_filter_Some in Hin as (Hs & Hne & Hconn).
  by exists sid', s'.
Qed.

(** What an accepted claim does. *)
Lemma on_claim_code_accepted clock sid s data st :
  authenticated s = true ->
  (checkRateLimit (clock 0%nat) (js_string (userId s)) "message" (userRateLimits st)).1 = true ->
  on_claim_code clock sid s data st
    = (mkState (checkRateLimit (clock 0%nat) (js_string (userId s)) "message" (userRateLimits st)).2
               (updateStats "messages_sent" 1 (connectionStats st))
               (redisConnected st) (subscribed st) (sockets st),
       Emit sid (claim_received (code data) (userId s) (clock 1%nat)
                                (auto_claim_or_false data))
         :: broadcast_emit sid (code_claimed (code data) (userId s) (clock 2%nat)) st).
Proof.
  intros Hauth Hok. unfold on_claim_code. rewrite Hauth. simpl.
  destruct (checkRateLimit (clock 0%nat) (js_string (userId s)) "message" (userRateLimits st))
    as [ok rl]. simpl in Hok. by subst ok.
Qed.

(** What a claim refused by the rate limiter does. *)
Lemma on_claim_code_refused clock sid s data st :
  authenticated s = true ->
  (checkRateLimit (clock 0%nat) (js_string (userId s)) "message" (userRateLimits st)).1 = false ->
  on_claim_code clock sid s data st
    = (mkState (userRateLimits st) (connectionStats st)
               (redisConnected st) (subscribed st) (sockets st),
       [Emit sid (error_ev "Rate limit exceeded - slow down!")]).
Proof.
  intros Hauth Hno. unfold on_claim_code. rewrite Hauth. simpl.
  pose proof (checkRateLimit_false_same _ _ _ _ Hno) as Hsame.
  destruct (checkRateLimit (clock 0%nat) (js_string (userId s)) "message" (userRateLimits st))
    as [ok rl]. simpl in *. by subst.
Qed.

(** C4: an accepted [claim_code] of an authenticated socket emits
    [claim_received] with the code and the sender's identity to the sender
    (and nothing else to it), emits [code_claimed] with the same code and
    [claimed_by] the sender's identity to every other connected socket, and
    adds exactly one to [messages_sent]. *)
Theorem C4_claim_acknowledged_and_broadcast st clock sid s data :
  reachable st ->
  sockets st !! sid = Some s ->
  authenticated s = true ->
  (checkRateLimit (clock 0%nat) (js_string (userId s)) "message" (userRateLimits st)).1 = true ->
  exists identity, userId s = Some identity /\
    let st' := (step clock (ClaimCode sid data) st).1 in
    let out := (step clock (ClaimCode sid data) st).2 in
    Emit sid (claim_received (code data) (Some identity) (clock 1%nat)
                             (auto_claim_or_false data))
      ∈ out /\
    (forall ev, Emit sid ev ∈ out ->
       ev = claim_received (code data) (Some identity) (clock 1%nat)
                           (auto_claim_or_false data)) /\
    (forall sid' s',
       sid' ≠ sid -> sockets st !! sid' = Some s' -> connected s' = true ->
       Emit sid' (code_claimed (code data) (Some identity) (clock 2%nat)) ∈ out) /\
    messages_sent (connectionStats st') = messages_sent (connectionStats st) + 1.
Proof.
  intros Hreach Hs Hauth Hok.
  destruct (reachable_sockets_ok st Hreach sid s Hs) as [_ Hid].
  destruct (Hid Hauth) as [identity Hidentity]. exists identity. split; [done|].
  simpl. rewrite Hs, on_claim_code_accepted by done. simpl. rewrite Hidentity.
  split; [|split; [|split]].
  - apply list_elem_of_here.
  - intros ev Hin. apply elem_of_cons in Hin as [Heq|Hin]; [congruence|].
    apply broadcast_emit_others in Hin as (sid' & s' & Heq & Hne & _).
    congruence.
  - intros sid' s' Hne Hs' Hconn. apply list_elem_of_further.
    by eapply broadcast_emit_reaches.
  - done.
Qed.

(** A username shorter than three characters is not valid. *)
Lemma short_username_invalid u :
  (String.length u < 3)%nat -> valid_username (Some u) = false.
Proof.
  intros Hshort. unfold valid_username.
  destruct (Nat.leb_spec 3 (String.length u)); [lia|]. apply andb_false_r.
Qed.

(** A check that passes uses one unit of the window running at [now]. *)
Lemma checkRateLimit_uses_one_unit now u t (m : gmap string RateWindow) :
  (checkRateLimit now u t m).1 = true ->
  units_used now (rate_key u t) (checkRateLimit now u t m).2
    = units_used now (rate_key u t) m + 1.
Proof.
  unfold checkRateLimit, units_used.
  destruct (m !! rate_key u t) as [w|] eqn:Hw; simpl.
  - destruct (Z.ltb_spec (resetTime w) now); simpl.
    + intros _. rewrite lookup_insert_eq. simpl.
      destruct (Z.ltb_spec (now + 60000) now); [lia|done].
    + destruct (maxLimit t <=? count w); simpl; [done|].
      intros _. rewrite lookup_insert_eq. simpl.
      destruct (Z.ltb_spec (resetTime w) now); [lia|done].
  - intros _. rewrite lookup_insert_eq. simpl.
    destruct (Z.ltb_spec (now + 60000) now); [lia|done].
Qed.

(** The authenticate handler, by the answer of its rate check. *)
Lemma on_authenticate_refused clock sid s data st :
  (checkRateLimit (clock 0%nat) (handshake_userId sid s) "message" (userRateLimits st)).1 = false ->
  on_authenticate clock sid s data st
    = (mkState (userRateLimits st) (connectionStats st)
               (redisConnected st) (subscribed st) (sockets st),
       [Emit sid (error_ev "Message rate limit exceeded")]).
Proof.
  intros Hno. unfold on_authenticate.
  pose proof (checkRateLimit_false_same _ _ _ _ Hno) as Hsame.
  destruct (checkRateLimit (clock 0%nat) (handshake_userId sid s) "message" (userRateLimits st))
    as [ok rl]. simpl in *. by subst.
Qed.

Lemma on_authenticate_invalid clock sid s data st :
  (checkRateLimit (clock 0%nat) (handshake_userId sid s) "message" (userRateLimits st)).1 = true ->
  valid_username (username data) = false ->
  on_authenticate clock sid s data st
    = (mkState (checkRateLimit (clock 0%nat) (handshake_userId sid s) "message"
                               (userRateLimits st)).2
               (connectionStats st) (redisConnected st) (subscribed st) (sockets st),
       [Emit sid (auth_error "Invalid username")]).
Proof.
  intros Hok Hbad. unfold on_authenticate.
  destruct (checkRateLimit (clock 0%nat) (handshake_userId sid s) "message" (userRateLimits st))
    as [ok rl]. simpl in *. subst ok. simpl. by rewrite Hbad.
Qed.

Lemma on_authenticate_valid clock sid s data st :
  (checkRateLimit (clock 0%nat) (handshake_userId sid s) "message" (userRateLimits st)).1 = true ->
  valid_username (username data) = true ->
  on_authenticate clock sid s data st
    = (mkState (checkRateLimit (clock 0%nat) (handshake_userId sid s) "message"
                               (userRateLimits st)).2
               (connectionStats st) (redisConnected st) (subscribed st)
               (<[sid := mkSocket (handshake_address s) (handshake_query_userId s)
                                  (Some (js_string (username data))) true
                                  ({[ "user_" +:+ js_string (username data) ]} ∪ rooms s)
                                  (connected s)]> (sockets st)),
       Emit sid (authenticated_ev (js_string (username data)) server_id (clock 1%nat))
         :: (if redisConnected st then [CallSendRecentCodes sid] else [])).
Proof.
  intros Hok Hgood. unfold on_authenticate.
  destruct (checkRateLimit (clock 0%nat) (handshake_userId sid s) "message" (userRateLimits st))
    as [ok rl]. simpl in *. subst ok. simpl. by rewrite Hgood.
Qed.

(** C6, as the code has it: an [authenticate] whose username is too short
    (of length less than 3), on a socket that is authenticated as [identity],
    leaves every socket record as it was, so the socket stays authenticated
    as [identity] in the same rooms, and leaves the counters as they were;
    the one event it emits to the socket is auth_error "Invalid username"
    when the message rate check of the connection passes, and
    error "Message rate limit exceeded" when it does not. *)
Theorem C6_failed_authenticate_keeps_session st clock sid s data identity short :
  sockets st !! sid = Some s ->
  authenticated s = true ->
  userId s = Some identity ->
  username data = Some short ->
  (String.length short < 3)%nat ->
  let st' := (step clock (Authenticate sid data) st).1 in
  let out := (step clock (Authenticate sid data) st).2 in
  sockets st' = sockets st /\
  (exists s', sockets st' !! sid = Some s' /\ authenticated s' = true /\
              userId s' = Some identity /\ rooms s' = rooms s) /\
  connectionStats st' = connectionStats st /\
  out = if (checkRateLimit (clock 0%nat) (handshake_userId sid s) "message" (userRateLimits st)).1
        then [Emit sid (auth_error "Invalid username")]
        else [Emit sid (error_ev "Message rate limit exceeded")].
Proof.
  intros Hs Hauth Hid Hname Hshort.
  assert (valid_username (username data) = false) as Hbad
    by (rewrite Hname; by apply short_username_invalid).
  simpl. rewrite Hs.
  destruct (checkRateLimit (clock 0%nat) (handshake_userId sid s) "message" (userRateLimits st)).1
    eqn:Hcheck.
  - rewrite on_authenticate_invalid by done. simpl. repeat split; try done.
    by exists s.
  - rewrite on_authenticate_refused by done. simpl. repeat split; try done.
    by exists s.
Qed.

(** C10: the rate check of [authenticate] is made on the key of the handshake
    [userId] (the socket id when the query has none), whatever identity the
    socket has, and before the username is looked at: a refused check emits
    error "Message rate limit exceeded" for every payload and changes no
    socket, and an attempt that passes the check and then fails on the
    username has used one unit of the message budget of that key. *)
Theorem C10_authenticate_charged_before_validation st clock sid s data :
  sockets st !! sid = Some s ->
  let user := match handshake_query_userId s with
              | Some q => if String.eqb q "" then sid else q
              | None => sid
              end in
  let check := checkRateLimit (clock 0%nat) user "message" (userRateLimits st) in
  let st' := (step clock (Authenticate sid data) st).1 in
  let out := (step clock (Authenticate sid data) st).2 in
  userRateLimits st' = check.2 /\
  (check.1 = false ->
     out = [Emit sid (error_ev "Message rate limit exceeded")] /\
     sockets st' = sockets st) /\
  (check.1 = true -> valid_username (username data) = false ->
     out = [Emit sid (auth_error "Invalid username")] /\
     sockets st' = sockets st /\
     units_used (clock 0%nat) (rate_key user "message") (userRateLimits st')
       = units_used (clock 0%nat) (rate_key user "message") (userRateLimits st) + 1).
Proof.
  intros Hs. simpl. rewrite Hs.
  change (match handshake_query_userId s with
          | Some q => if String.eqb q "" then sid else q
          | None => sid
          end) with (handshake_userId sid s).
  split; [|split].
  - unfold on_authenticate.
    destruct (checkRateLimit (clock 0%nat) (handshake_userId sid s) "message" (userRateLimits st))
      as [ok rl]. destruct ok; simpl; [|done].
    by destruct (valid_username (username data)).
  - intros Hno. by rewrite on_authenticate_refused.
  - intros Hok Hbad. rewrite on_authenticate_invalid by done. simpl.
    repeat split; try done. by apply checkRateLimit_uses_one_unit.
Qed.

(** ** The connection counter *)

Lemma on_connection_admitted clock sid ip q st :
  (checkRateLimit (clock 0%nat) ip "connection" (userRateLimits st)).1 = true ->
  on_connection clock sid ip q st
    = (mkState (checkRateLimit (clock 0%nat) ip "connection" (userRateLimits st)).2
               (updateStats "active_connections" 1
                  (updateStats "total_connections" 1 (connectionStats st)))
               (redisConnected st) (subscribed st)
               (<[sid := mkSocket ip q None false ∅ true]> (sockets st)),
       [Emit sid (welcome server_id (redisConnected st) (clock 1%nat)
                          MESSAGE_RATE_LIMIT CONNECTION_RATE_LIMIT)]).
Proof.
  intros Hok. unfold on_connection.
  destruct (checkRateLimit (clock 0%nat) ip "connection" (userRateLimits st)) as [ok rl].
  simpl in Hok. by subst ok.
Qed.

Lemma on_connection_rejected clock sid ip q st :
  (checkRateLimit (clock 0%nat) ip "connection" (userRateLimits st)).1 = false ->
  on_connection clock sid ip q st
    = (mkState (userRateLimits st) (connectionStats st)
               (redisConnected st) (subscribed st) (sockets st),
       [Emit sid (error_ev "Connection rate limit exceeded"); ForceDisconnect sid]).
Proof.
  intros Hno. unfold on_connection.
  pose proof (checkRateLimit_false_same _ _ _ _ Hno) as Hsame.
  destruct (checkRateLimit (clock 0%nat) ip "connection" (userRateLimits st)) as [ok rl].
  simpl in *. by subst.
Qed.

Lemma live_insert_connected sid (s : Socket) (m : gmap string Socket) :
  connected s = true ->
  size (filter (fun p : string * Socket => connected p.2 = true) (<[sid := s]> m))
  = match m !! sid with
    | Some old => if connected old
                  then size (filter (fun p : string * Socket => connected p.2 = true) m)
                  else S (size (filter (fun p : string * Socket => connected p.2 = true) m))
    | None => S (size (filter (fun p : string * Socket => connected p.2 = true) m))
    end.
Proof.
  intros Hconn. rewrite map_filter_insert_True by done.
  destruct (m !! sid) as [old|] eqn:Hold.
  - destruct (connected old) eqn:Hc.
    + apply map_size_insert_Some. exists old. by apply map_lookup_filter_Some.
    + apply map_size_insert_None. apply map_lookup_filter_None. right.
      intros x Hx. simpl. congruence.
  - apply map_size_insert_None. apply map_lookup_filter_None. by left.
Qed.

Lemma live_insert_same_flag sid (s old : Socket) (m : gmap string Socket) :
  m !! sid = Some old -> connected s = connected old ->
  size (filter (fun p : string * Socket => connected p.2 = true) (<[sid := s]> m))
  = size (filter (fun p : string * Socket => connected p.2 = true) m).
Proof.
  intros Hold Hflag. destruct (connected old) eqn:Hc.
  - by rewrite live_insert_connected, Hold, Hc.
  - rewrite map_filter_insert_False by (simpl; congruence).
    rewrite map_filter_delete. apply map_size_delete_None.
    apply map_lookup_filter_None. right. intros x Hx. simpl. congruence.
Qed.

Lemma live_insert_closed sid (s old : Socket) (m : gmap string Socket) :
  connected s = false -> m !! sid = Some old -> connected old = true ->
  Z.of_nat (size (filter (fun p : string * Socket => connected p.2 = true) (<[sid := s]> m)))
  = Z.of_nat (size (filter (fun p : string * Socket => connected p.2 = true) m)) - 1.
Proof.
  intros Hclosed Hold Hconn.
  rewrite map_filter_insert_False by (simpl; congruence).
  rewrite map_filter_delete.
  assert (filter (fun p : string * Socket => connected p.2 = true) m !! sid = Some old)
    as Hin by (by apply map_lookup_filter_Some).
  rewrite map_size_delete_Some by eauto.
  assert (size (filter (fun p : string * Socket => connected p.2 = true) m) ≠ 0%nat).
  { intros Hzero. apply map_size_empty_inv in Hzero. rewrite Hzero in Hin.
    by rewrite lookup_empty in Hin. }
  lia.
Qed.

(** A handler run that the transport can deliver keeps the counter right. *)
Lemma step_counted clock e st :
  deliverable e st = true -> counted st -> counted (step clock e st).1.
Proof.
  unfold counted, live_connections. intros Hdel Hcount.
  destruct e as [sid ip q|sid cb|sid data|sid data|sid|sid|msg]; simpl in *.
  - destruct (sockets st !! sid) as [old|] eqn:Hold; [done|].
    destruct (checkRateLimit (clock 0%nat) ip "connection" (userRateLimits st)).1 eqn:Hcheck.
    + rewrite on_connection_admitted by done. simpl.
      rewrite live_insert_connected, Hold by done. lia.
    + by rewrite on_connection_rejected.
  - by destruct (sockets st !! sid).
  - destruct (sockets st !! sid) as [s|] eqn:Hs; [|done].
    destruct (checkRateLimit (clock 0%nat) (handshake_userId sid s) "message" (userRateLimits st)).1
      eqn:Hcheck; [|by rewrite on_authenticate_refused].
    destruct (valid_username (username data)) eqn:Hname;
      [|by rewrite on_authenticate_invalid].
    rewrite on_authenticate_valid by done. simpl.
    by rewrite (live_insert_same_flag sid _ s).
  - destruct (sockets st !! sid) as [s|] eqn:Hs; [|done].
    unfold on_claim_code. destruct (authenticated s); simpl; [|done].
    by break_check.
  - destruct (sockets st !! sid) as [s|] eqn:Hs; [|done]. simpl.
    rewrite (live_insert_closed sid _ s) by done. lia.
  - done.
  - destruct (subscribed st); [|done]. unfold on_bus_message.
    destruct (JSON_parse msg) as [v|]; [|done]. by destruct (JSON_is_null v).
Qed.

Lemma run_counted tr : forall st,
  transport_ok tr st -> counted st -> counted (run tr st).1.
Proof.
  induction tr as [|[clock e] rest IH]; intros st Hok Hcount; [done|].
  simpl in *. destruct Hok as [Hdel Hrest].
  pose proof (step_counted clock e st Hdel Hcount) as Hstep.
  destruct (step clock e st) as [st1 out1]. simpl in *.
  specialize (IH st1 Hrest Hstep). by destruct (run rest st1).
Qed.

Lemma started_counted bus start : counted (started bus start).
Proof.
  unfold counted, live_connections. rewrite started_sockets.
  rewrite map_filter_empty, map_size_empty. unfold started, setupRedisAdapter.
  by destruct (pub_connect_ok bus), (sub_connect_ok bus), (subscribe_ok bus).
Qed.

Lemma deliver_counted clock e st : counted st -> counted (deliver clock e st).1.
Proof.
  intros Hcount. unfold deliver. destruct (deliverable e st) eqn:Hdel; [|done].
  by apply step_counted.
Qed.

Lemma run_delivered_counted tr : forall st,
  counted st -> counted (run_delivered tr st).1.
Proof.
  induction tr as [|[clock e] rest IH]; intros st Hcount; [done|].
  cbn [run_delivered]. pose proof (deliver_counted clock e st Hcount) as Hstep.
  destruct (deliver clock e st) as [st1 out1]. cbn [fst] in Hstep.
  specialize (IH st1 Hstep). by destruct (run_delivered rest st1).
Qed.

(** C9: [active_connections] is always the number of admitted connections
    that have not been disconnected, along every trace of events that the
    transport hands to the handlers from start-up on.  A connection that is
    admitted adds exactly one; a connection refused by the connection rate
    limit changes no counter and registers no socket; the disconnect signal
    of a connected socket takes one away; and a further disconnect signal for
    that socket, like one for a socket that was never admitted, runs no
    handler and changes nothing. *)
Theorem C9_active_connections_accounting :
  (forall st clock sid ip q,
     sockets st !! sid = None ->
     let st' := (deliver clock (Connection sid ip q) st).1 in
     if (checkRateLimit (clock 0%nat) ip "connection" (userRateLimits st)).1
     then active_connections (connectionStats st')
          = active_connections (connectionStats st) + 1
     else connectionStats st' = connectionStats st /\ sockets st' = sockets st) /\
  (forall st clock sid s,
     sockets st !! sid = Some s -> connected s = true ->
     let st' := (deliver clock (Disconnect sid) st).1 in
     active_connections (connectionStats st')
       = active_connections (connectionStats st) - 1 /\
     forall later, deliver later (Disconnect sid) st' = (st', [])) /\
  (forall st clock sid,
     sockets st !! sid = None -> deliver clock (Disconnect sid) st = (st, [])) /\
  (forall bus start tr,
     active_connections (connectionStats (run_delivered tr (started bus start)).1)
     = Z.of_nat (live_connections (run_delivered tr (started bus start)).1)).
Proof.
  split; [|split; [|split]].
  - intros st clock sid ip q Hfresh. unfold deliver. simpl. rewrite Hfresh.
    destruct (checkRateLimit (clock 0%nat) ip "connection" (userRateLimits st)).1 eqn:Hcheck.
    + rewrite on_connection_admitted by done. simpl. lia.
    + by rewrite on_connection_rejected.
  - intros st clock sid s Hs Hconn. unfold deliver. simpl. rewrite Hs, Hconn.
    simpl. split; [lia|]. intros later. by rewrite lookup_insert_eq.
  - intros st clock sid Hnone. unfold deliver. simpl. by rewrite Hnone.
  - intros bus start tr. apply run_delivered_counted, started_counted.
Qed.

(** ** Start-up without the bus *)

Lemma step_redisConnected clock e st :
  redisConnected (step clock e st).1 = redisConnected st.
Proof.
  destruct e as [sid ip q|sid cb|sid data|sid data|sid|sid|msg]; simpl.
  - unfold on_connection. by break_check.
  - by destruct (sockets st !! sid).
  - destruct (sockets st !! sid) as [s|]; [|done].
    unfold on_authenticate. break_check; [|done].
    by destruct (valid_username (username data)).
  - destruct (sockets st !! sid) as [s|]; [|done].
    unfold on_claim_code. destruct (authenticated s); simpl; [|done].
    by break_check.
  - by destruct (sockets st !! sid).
  - done.
  - destruct (subscribed st); [|done]. unfold on_bus_message.
    destruct (JSON_parse msg) as [v|]; [|done]. by destruct (JSON_is_null v).
Qed.

Lemma emits_are_not_bus_operations (f : string * Socket -> string) ev
    (l : list (string * Socket)) :
  Forall (fun e => is_bus_operation e = false)
         ((fun p : string * Socket => Emit (f p) ev) <$> l).
Proof. induction l; simpl; by constructor. Qed.

Lemma step_no_bus_operation clock e st :
  redisConnected st = false ->
  Forall (fun e => is_bus_operation e = false) (step clock e st).2.
Proof.
  intros Hdown.
  destruct e as [sid ip q|sid cb|sid data|sid data|sid|sid|msg]; simpl.
  - unfold on_connection. break_check; by repeat constructor.
  - destruct (sockets st !! sid); [|by constructor].
    simpl. destruct cb; by repeat constructor.
  - destruct (sockets st !! sid) as [s|]; [|by constructor].
    unfold on_authenticate. break_check; [|by repeat constructor].
    destruct (valid_username (username data)); simpl; [|by repeat constructor].
    rewrite Hdown. by repeat constructor.
  - destruct (sockets st !! sid) as [s|]; [|by constructor].
    unfold on_claim_code. destruct (authenticated s); simpl; [|by repeat constructor].
    break_check; [|by repeat constructor].
    constructor; [done|]. apply (emits_are_not_bus_operations fst).
  - destruct (sockets st !! sid); by constructor.
  - by constructor.
  - destruct (subscribed st); [|by constructor]. unfold on_bus_message.
    destruct (JSON_parse msg) as [v|]; [|by constructor].
    destruct (JSON_is_null v); [by constructor|].
    apply (emits_are_not_bus_operations fst).
Qed.

Lemma run_without_bus tr : forall st,
  redisConnected st = false ->
  redisConnected (run tr st).1 = false /\
  Forall (fun e => is_bus_operation e = false) (run tr st).2.
Proof.
  induction tr as [|[clock e] rest IH]; intros st Hdown; [by split|]. simpl.
  pose proof (step_redisConnected clock e st) as Hflag.
  pose proof (step_no_bus_operation clock e st Hdown) as Hout.
  destruct (step clock e st) as [st1 out1]. simpl in *.
  destruct (IH st1) as [IH1 IH2]; [congruence|].
  destruct (run rest st1) as [st2 out2]. simpl in *.
  split; [done|]. by apply Forall_app.
Qed.

(** C7: when one of the two bus connects fails at start-up, [startServer]
    does not exit: the server runs from the initial state with
    [redisConnected] false.  From then on, along every trace of handler runs,
    the flag stays false, [GET /health] reports [redis_connected] false, no
    handler run and no shutdown performs a bus operation (so none can throw
    into a handler), and the broadcast of an accepted claim still reaches
    every other connected socket. *)
Theorem C7_bus_failure_degrades_to_single_instance bus start :
  pub_connect_ok bus && sub_connect_ok bus = false ->
  startServer bus false (initial_state start) = Running (initial_state start) /\
  forall tr,
    let st := (run tr (initial_state start)).1 in
    redisConnected st = false /\
    (forall now, redis_connected (health now st) = false) /\
    Forall (fun e => is_bus_operation e = false) (run tr (initial_state start)).2 /\
    (on_SIGTERM st).1 = [] /\
    (forall clock sid s data,
       sockets st !! sid = Some s ->
       authenticated s = true ->
       (checkRateLimit (clock 0%nat) (js_string (userId s)) "message" (userRateLimits st)).1 = true ->
       forall sid' s',
         sid' ≠ sid -> sockets st !! sid' = Some s' -> connected s' = true ->
         Emit sid' (code_claimed (code data) (userId s) (clock 2%nat))
           ∈ (step clock (ClaimCode sid data) st).2).
Proof.
  intros Hfail. split.
  - unfold startServer, setupRedisAdapter.
    destruct (pub_connect_ok bus); [|done].
    by destruct (sub_connect_ok bus).
  - intros tr st.
    destruct (run_without_bus tr (initial_state start)) as [Hflag Hout]; [done|].
    fold st in Hflag. repeat split; try done.
    + unfold on_SIGTERM. by rewrite Hflag.
    + intros clock sid s data Hs Hauth Hok sid' s' Hne Hs' Hconn.
      simpl. rewrite Hs, on_claim_code_accepted by done. simpl.
      apply list_elem_of_further. by eapply broadcast_emit_reaches.
Qed.

(** ** The replay of recent codes *)

Lemma lRange_first_ten (l : list string) : lRange l 0 9 = take 10 l.
Proof. done. Qed.

(** C8, as the code has it: a successful [authenticate] calls
    [sendRecentCodes] exactly when [redisConnected] holds.  The call emits
    nothing when the read fails, when the stored list is empty or when an
    entry does not parse; otherwise it emits one [recent_codes] event with
    the first ten entries of the stored list at most, parsed, in the order
    in which they are stored, and [count] the number of entries sent. *)
Theorem C8_recent_codes_replay :
  (forall st clock sid s data,
     sockets st !! sid = Some s ->
     (checkRateLimit (clock 0%nat) (handshake_userId sid s) "message" (userRateLimits st)).1 = true ->
     valid_username (username data) = true ->
     (step clock (Authenticate sid data) st).2
       = Emit sid (authenticated_ev (js_string (username data)) server_id (clock 1%nat))
           :: (if redisConnected st then [CallSendRecentCodes sid] else [])) /\
  (forall sid, sendRecentCodes None sid = [] /\ sendRecentCodes (Some []) sid = []) /\
  (forall sid l,
     mapM JSON_parse (take 10 l) = None -> sendRecentCodes (Some l) sid = []) /\
  (forall sid l codes,
     l ≠ [] ->
     mapM JSON_parse (take 10 l) = Some codes ->
     sendRecentCodes (Some l) sid = [Emit sid (recent_codes codes (length codes))] /\
     length codes = Nat.min 10 (length l) /\
     (length codes <= 10)%nat /\
     forall i parsed, codes !! i = Some parsed ->
       exists raw, l !! i = Some raw /\ JSON_parse raw = Some parsed).
Proof.
  split; [|split; [|split]].
  - intros st clock sid s data Hs Hok Hgood. simpl.
    by rewrite Hs, on_authenticate_valid.
  - done.
  - intros sid l Hbad. unfold sendRecentCodes. rewrite lRange_first_ten, Hbad.
    by destruct (0 <? length (take 10 l))%nat.
  - intros sid l codes Hne Hparse.
    pose proof (length_mapM _ _ _ Hparse) as Hlen. rewrite length_take in Hlen.
    split; [|split; [lia|split; [lia|]]].
    + unfold sendRecentCodes. rewrite lRange_first_ten, Hparse, length_take.
      destruct l as [|x l]; [done|]. simpl in *.
      by rewrite Hlen.
    + intros i parsed Hi. apply mapM_Some in Hparse.
      destruct (Forall2_lookup_r _ _ _ _ _ Hparse Hi) as (raw & Hraw & Hp).
      exists raw. split; [|done].
      apply lookup_take_Some in Hraw. by destruct Hraw.
Qed.

(** ** Further properties of the rate limiter *)

Lemma list_ascii_of_string_app (a b : string) :
  String.list_ascii_of_string (a +:+ b) = String.list_ascii_of_string a ++ String.list_ascii_of_string b.
Proof. induction a as [|c a IH]; simpl; [done|by rewrite IH]. Qed.

Lemma list_ascii_of_string_inj (a b : string) :
  String.list_ascii_of_string a = String.list_ascii_of_string b -> a = b.
Proof.
  intros Heq. rewrite <- (String.string_of_list_ascii_of_string a).
  rewrite <- (String.string_of_list_ascii_of_string b). by rewrite Heq.
Qed.

(** Two strings with the same suffix appended are equal only if they are. *)
Lemma append_suffix_inj (a b suffix : string) : a +:+ suffix = b +:+ suffix -> a = b.
Proof.
  intros Heq. apply list_ascii_of_string_inj.
  apply (f_equal String.list_ascii_of_string) in Heq.
  rewrite !list_ascii_of_string_app in Heq.
  by apply app_inj_2 in Heq as [? _].
Qed.

(** A key of the category 'connection' is never a key of 'message': the two
    end in different characters. *)
Lemma rate_key_types_differ u u' :
  rate_key u "connection" ≠ rate_key u' "message".
Proof.
  unfold rate_key. intros Heq.
  apply (f_equal String.list_ascii_of_string) in Heq.
  rewrite !list_ascii_of_string_app in Heq.
  apply (f_equal (@rev Ascii.ascii)) in Heq.
  rewrite !rev_app_distr in Heq. simpl in Heq. discriminate Heq.
Qed.

Lemma rate_key_inj u t u' t' :
  used_type t -> used_type t' -> rate_key u t = rate_key u' t' -> u = u' /\ t = t'.
Proof.
  intros [-> | ->] [-> | ->] Heq.
  - split; [|done]. by apply append_suffix_inj in Heq.
  - by apply rate_key_types_differ in Heq.
  - symmetry in Heq. by apply rate_key_types_differ in Heq.
  - split; [|done]. by apply append_suffix_inj in Heq.
Qed.

(** A check writes under its own key only. *)
Lemma checkRateLimit_other_key now u t (m : gmap string RateWindow) key :
  key ≠ rate_key u t -> (checkRateLimit now u t m).2 !! key = m !! key.
Proof.
  intros Hne. unfold checkRateLimit.
  destruct (m !! rate_key u t) as [w|]; simpl.
  - destruct (resetTime w <? now); simpl; [by rewrite lookup_insert_ne|].
    destruct (maxLimit t <=? count w); simpl; [done|by rewrite lookup_insert_ne].
  - by rewrite lookup_insert_ne.
Qed.

(** X1: the budgets are kept apart.  For the two categories the server uses,
    a check for one (user, category) pair leaves the window of every other
    pair exactly as it was, whatever its answer. *)
Theorem X1_checks_do_not_interfere now u t u' t' (m : gmap string RateWindow) :
  used_type t -> used_type t' -> (u, t) ≠ (u', t') ->
  (checkRateLimit now u t m).2 !! rate_key u' t' = m !! rate_key u' t'.
Proof.
  intros Ht Ht' Hne. apply checkRateLimit_other_key.
  intros Heq. apply rate_key_inj in Heq as [-> ->]; done.
Qed.

(** A check either leaves the map as it is or stores one window under its
    own key, with a count between 1 and the limit of the category. *)
Lemma checkRateLimit_writes now u t (m : gmap string RateWindow) :
  (forall w, m !! rate_key u t = Some w -> 1 <= count w) ->
  (checkRateLimit now u t m).2 = m \/
  exists w, (checkRateLimit now u t m).2 = <[rate_key u t := w]> m /\
            1 <= count w <= maxLimit t.
Proof.
  intros Hold. pose proof (maxLimit_pos t) as Hpos. unfold checkRateLimit.
  destruct (m !! rate_key u t) as [w|] eqn:Hw; simpl.
  - destruct (resetTime w <? now); simpl.
    + right. eexists. split; [done|]. simpl. lia.
    + destruct (Z.leb_spec (maxLimit t) (count w)); simpl; [by left|].
      right. eexists. split; [done|]. simpl. specialize (Hold w eq_refl). lia.
  - right. eexists. split; [done|]. simpl. lia.
Qed.

Lemma maxLimit_le t : maxLimit t <= MESSAGE_RATE_LIMIT.
Proof. unfold maxLimit. by destruct (String.eqb t "connection"). Qed.

Lemma checkRateLimit_counts_within_limits now u t (m : gmap string RateWindow) :
  used_type t -> counts_within_limits m ->
  counts_within_limits (checkRateLimit now u t m).2.
Proof.
  intros Ht Hm.
  destruct (checkRateLimit_writes now u t m) as [-> | (w & -> & Hw)]; [|done|].
  { intros w0 Hw0. by destruct (Hm _ _ Hw0) as [[? _] _]. }
  intros key w' Hlook. destruct (decide (key = rate_key u t)) as [-> | Hne].
  - rewrite lookup_insert_eq in Hlook. injection Hlook as <-.
    pose proof (maxLimit_le t). split; [lia|].
    intros ip Hkey. apply rate_key_inj in Hkey as [_ ->]; [|done|by left].
    change (maxLimit "connection") with CONNECTION_RATE_LIMIT in Hw. lia.
  - rewrite lookup_insert_ne in Hlook by done. by apply Hm.
Qed.

Lemma step_counts_within_limits clock e st :
  counts_within_limits (userRateLimits st) ->
  counts_within_limits (userRateLimits (step clock e st).1).
Proof.
  intros Hm.
  destruct e as [sid ip q|sid cb|sid data|sid data|sid|sid|msg]; simpl.
  - pose proof (checkRateLimit_counts_within_limits (clock 0%nat) ip "connection"
                  (userRateLimits st) (or_introl eq_refl) Hm) as Hnew.
    unfold on_connection.
    destruct (checkRateLimit (clock 0%nat) ip "connection" (userRateLimits st))
      as [ok rl]. by destruct ok.
  - by destruct (sockets st !! sid).
  - destruct (sockets st !! sid) as [s|]; [|done].
    pose proof (checkRateLimit_counts_within_limits (clock 0%nat)
                  (handshake_userId sid s) "message"
                  (userRateLimits st) (or_intror eq_refl) Hm) as Hnew.
    unfold on_authenticate.
    destruct (checkRateLimit (clock 0%nat) (handshake_userId sid s) "message"
                             (userRateLimits st)) as [ok rl].
    destruct ok; simpl; [|done]. by destruct (valid_username (username data)).
  - destruct (sockets st !! sid) as [s|]; [|done].
    pose proof (checkRateLimit_counts_within_limits (clock 0%nat)
                  (js_string (userId s)) "message"
                  (userRateLimits st) (or_intror eq_refl) Hm) as Hnew.
    unfold on_claim_code. destruct (authenticated s); simpl; [|done].
    destruct (checkRateLimit (clock 0%nat) (js_string (userId s)) "message"
                             (userRateLimits st)) as [ok rl].
    by destruct ok.
  - by destruct (sockets st !! sid).
  - done.
  - destruct (subscribed st); [|done]. unfold on_bus_message.
    destruct (JSON_parse msg) as [v|]; [|done]. by destruct (JSON_is_null v).
Qed.

Lemma run_counts_within_limits tr : forall st,
  counts_within_limits (userRateLimits st) ->
  counts_within_limits (userRateLimits (run tr st).1).
Proof.
  induction tr as [|[clock e] rest IH]; intros st Hm; [done|]. simpl.
  pose proof (step_counts_within_limits clock e st Hm) as Hstep.
  destruct (step clock e st) as [st1 out1]. specialize (IH st1 Hstep).
  by destruct (run rest st1).
Qed.

Lemma started_userRateLimits bus start : userRateLimits (started bus start) = ∅.
Proof.
  unfold started, setupRedisAdapter.
  by destruct (pub_connect_ok bus), (sub_connect_ok bus), (subscribe_ok bus).
Qed.

(** X2: the stored counters stay within the limits.  In every reachable state
    each window of [userRateLimits] has a count of at least 1 and at most 10,
    and at most 5 when its key is the key of an address in the category
    'connection'. *)
Theorem X2_stored_counts_within_limits st key w :
  reachable st ->
  userRateLimits st !! key = Some w ->
  1 <= count w <= 10 /\
  (forall ip, key = rate_key ip "connection" -> count w <= 5).
Proof.
  intros (bus & start & tr & ->) Hlook.
  eapply (run_counts_within_limits tr (started bus start)); [|done].
  rewrite started_userRateLimits. intros k w0 Hk. by rewrite lookup_empty in Hk.
Qed.

(** ** The map of windows only grows *)

Lemma checkRateLimit_keeps_keys now u t (m : gmap string RateWindow) :
  dom m ⊆ dom (checkRateLimit now u t m).2 /\
  (size (checkRateLimit now u t m).2 <= S (size m))%nat.
Proof.
  unfold checkRateLimit. destruct (m !! rate_key u t) as [w|] eqn:Hw; simpl.
  - assert (size (<[rate_key u t := mkWindow 1 (now + 60000)]> m) = size m) as H1
      by (apply map_size_insert_Some; eauto).
    assert (size (<[rate_key u t := mkWindow (count w + 1) (resetTime w)]> m) = size m)
      as H2 by (apply map_size_insert_Some; eauto).
    destruct (resetTime w <? now); simpl.
    + rewrite dom_insert_L, H1. split; [set_solver|lia].
    + destruct (maxLimit t <=? count w); simpl; [split; [done|lia]|].
      rewrite dom_insert_L, H2. split; [set_solver|lia].
  - rewrite dom_insert_L, map_size_insert_None by done. split; [set_solver|lia].
Qed.

Lemma keys_kept_refl (m : gmap string RateWindow) :
  dom m ⊆ dom m /\ (size m <= S (size m))%nat.
Proof. split; [done|lia]. Qed.

Lemma step_keeps_keys clock e st :
  dom (userRateLimits st) ⊆ dom (userRateLimits (step clock e st).1) /\
  (size (userRateLimits (step clock e st).1) <= S (size (userRateLimits st)))%nat.
Proof.
  destruct e as [sid ip q|sid cb|sid data|sid data|sid|sid|msg]; simpl.
  - pose proof (checkRateLimit_keeps_keys (clock 0%nat) ip "connection"
                  (userRateLimits st)) as Hnew.
    unfold on_connection.
    destruct (checkRateLimit (clock 0%nat) ip "connection" (userRateLimits st))
      as [ok rl]. by destruct ok.
  - destruct (sockets st !! sid); apply keys_kept_refl.
  - destruct (sockets st !! sid) as [s|]; [|apply keys_kept_refl].
    pose proof (checkRateLimit_keeps_keys (clock 0%nat) (handshake_userId sid s)
                  "message" (userRateLimits st)) as Hnew.
    unfold on_authenticate.
    destruct (checkRateLimit (clock 0%nat) (handshake_userId sid s) "message"
                             (userRateLimits st)) as [ok rl].
    destruct ok; simpl; [|done]. by destruct (valid_username (username data)).
  - destruct (sockets st !! sid) as [s|]; [|apply keys_kept_refl].
    pose proof (checkRateLimit_keeps_keys (clock 0%nat) (js_string (userId s))
                  "message" (userRateLimits st)) as Hnew.
    unfold on_claim_code. destruct (authenticated s); simpl; [|apply keys_kept_refl].
    destruct (checkRateLimit (clock 0%nat) (js_string (userId s)) "message"
                             (userRateLimits st)) as [ok rl].
    by destruct ok.
  - destruct (sockets st !! sid); apply keys_kept_refl.
  - apply keys_kept_refl.
  - destruct (subscribed st); [|apply keys_kept_refl]. unfold on_bus_message.
    destruct (JSON_parse msg) as [v|]; [|apply keys_kept_refl].
    destruct (JSON_is_null v); apply keys_kept_refl.
Qed.

(** X3: no window is ever removed.  Along every trace of handler runs the
    keys of [userRateLimits] are kept (a key once stored stays stored, also
    after its window is over and after the socket is gone), and the map gains
    at most one key per handler run. *)
Theorem X3_rate_limit_keys_are_never_removed tr : forall st,
  dom (userRateLimits st) ⊆ dom (userRateLimits (run tr st).1) /\
  (size (userRateLimits (run tr st).1) <= size (userRateLimits st) + length tr)%nat.
Proof.
  induction tr as [|[clock e] rest IH]; intros st.
  { simpl. split; [done|lia]. }
  simpl. destruct (step_keeps_keys clock e st) as [Hdom Hsize].
  destruct (step clock e st) as [st1 out1]. destruct (IH st1) as [IHdom IHsize].
  destruct (run rest st1) as [st2 out2]. simpl in *.
  split; [by etrans|lia].
Qed.

(** ** Budgets within and across windows *)

Lemma allow_seq_app u t : forall (a b : list Z) (m : gmap string RateWindow),
  (allow_seq (a ++ b) u t m).1
    = (allow_seq a u t m).1 ++ (allow_seq b u t (allow_seq a u t m).2).1 /\
  (allow_seq (a ++ b) u t m).2 = (allow_seq b u t (allow_seq a u t m).2).2.
Proof.
  induction a as [|now a IH]; intros b m; [done|]. simpl.
  destruct (checkRateLimit now u t m) as [ok m1]. destruct (IH b m1) as [IH1 IH2].
  destruct (allow_seq (a ++ b) u t m1) as [bs m2].
  destruct (allow_seq a u t m1) as [bs1 m3]. simpl in *.
  by rewrite IH1, IH2.
Qed.

(** X4: what is left of a window.  While a window with count [c] and reset
    time [r] is running (a check at the reset time itself still falls into
    it), any run of checks for its key is answered with exactly
    min(number of checks, limit - c) acceptances followed by refusals only;
    the stored count grows by the number of acceptances and the reset time
    does not move. *)
Theorem X4_remaining_budget_of_a_window u t r : forall (times : list Z) c
    (m : gmap string RateWindow),
  m !! rate_key u t = Some (mkWindow c r) ->
  c <= maxLimit t ->
  Forall (fun now => now <= r) times ->
  let accepted := Nat.min (length times) (Z.to_nat (maxLimit t - c)) in
  (allow_seq times u t m).1
    = replicate accepted true ++ replicate (length times - accepted) false /\
  (allow_seq times u t m).2 !! rate_key u t
    = Some (mkWindow (c + Z.of_nat accepted) r).
Proof.
  induction times as [|now rest IH]; intros c m Hw Hc Hall.
  - simpl. split; [done|]. rewrite Hw. do 2 f_equal. lia.
  - inversion Hall as [|? ? Hnow Hrest]; subst. cbv zeta. cbn [allow_seq length].
    destruct (Z.lt_ge_cases c (maxLimit t)) as [Hroom | Hfull].
    + rewrite (checkRateLimit_counts now u t m c r) by done.
      destruct (IH (c + 1) (<[rate_key u t := mkWindow (c + 1) r]> m))
        as [IH1 IH2]; [by rewrite lookup_insert_eq|lia|done|].
      destruct (allow_seq rest u t _) as [bs m2]. cbn [fst snd] in *.
      replace (Nat.min (S (length rest)) (Z.to_nat (maxLimit t - c)))
        with (S (Nat.min (length rest) (Z.to_nat (maxLimit t - (c + 1))))) by lia.
      rewrite IH1, IH2. split; [done|]. do 2 f_equal. lia.
    + rewrite (checkRateLimit_full now u t m c r) by done.
      destruct (IH c m) as [IH1 IH2]; [done|done|done|].
      destruct (allow_seq rest u t m) as [bs m2]. cbn [fst snd] in *.
      replace (Z.to_nat (maxLimit t - c)) with 0%nat in * by lia.
      rewrite Nat.min_0_r in *. rewrite IH1, IH2. by rewrite Nat.sub_0_r.
Qed.

(** X5: every window grants the whole budget anew.  When the checks of one
    window use it up and the next check comes after the reset time, that
    check and the checks inside the window it opens are accepted as well:
    twice the limit is accepted in a row, however close to the reset time the
    two groups are. *)
Theorem X5_two_windows_two_budgets u t (m : gmap string RateWindow)
    (first : Z) (rest1 : list Z) (second : Z) (rest2 : list Z) :
  window_over first u t m ->
  S (length rest1) = Z.to_nat (maxLimit t) ->
  Forall (fun now => now <= first + 60000) rest1 ->
  first + 60000 < second ->
  S (length rest2) = Z.to_nat (maxLimit t) ->
  Forall (fun now => now <= second + 60000) rest2 ->
  (allow_seq ((first :: rest1) ++ second :: rest2) u t m).1
    = replicate (2 * Z.to_nat (maxLimit t)) true.
Proof.
  intros Hover Hlen1 Hall1 Hgap Hlen2 Hall2.
  destruct (allow_seq_app u t (first :: rest1) (second :: rest2) m) as [-> _].
  destruct (allow_seq_from_new u t first rest1 0 m) as [H1 H2]; [done|lia|done|].
  rewrite H1.
  destruct (allow_seq_from_new u t second rest2 0
              (allow_seq (first :: rest1) u t m).2) as [H3 _]; [|lia|done|].
  { unfold window_over. rewrite H2. simpl. lia. }
  rewrite H3. simpl. rewrite !app_nil_r, <- replicate_add. f_equal. lia.
Qed.

(** ** Connections from one address *)

Lemma run_app (a : list (Clock * InEvent)) : forall b st,
  (run (a ++ b) st).1 = (run b (run a st).1).1.
Proof.
  induction a as [|[clock e] a IH]; intros b st; [done|]. simpl.
  destruct (step clock e st) as [st1 out1]. specialize (IH b st1).
  destruct (run (a ++ b) st1) as [st2 out2]. destruct (run a st1) as [st3 out3].
  simpl in *. rewrite IH. by destruct (run b st3).
Qed.

Lemma outputs_app (a : list (Clock * InEvent)) : forall b st,
  outputs (a ++ b) st = outputs a st ++ outputs b (run a st).1.
Proof.
  induction a as [|[clock e] a IH]; intros b st; [done|]. simpl.
  rewrite IH. destruct (step clock e st) as [st1 out1]. simpl.
  by destruct (run a st1).
Qed.

Lemma run_step clock e rest st :
  (run ((clock, e) :: rest) st).1 = (run rest (step clock e st).1).1.
Proof.
  cbn [run]. destruct (step clock e st) as [st1 out1]. cbn [fst].
  by destruct (run rest st1).
Qed.

(** Connections from one address inside a running window with [n] units
    left: [n] are admitted, the others are turned away, and the window ends
    up full. *)
Lemma connections_running ip st0 r : forall (l : list (Clock * (string * option string)))
    (n : nat) c st,
  redisConnected st = redisConnected st0 ->
  userRateLimits st !! rate_key ip "connection" = Some (mkWindow c r) ->
  c + Z.of_nat n = 5 ->
  (n <= length l)%nat ->
  Forall (fun p : Clock * (string * option string) => p.1 0%nat <= r) l ->
  outputs (connections ip l) st
    = (admitted_connection st0 <$> take n l) ++ (refused_connection <$> drop n l) /\
  userRateLimits (run (connections ip l) st).1 !! rate_key ip "connection"
    = Some (mkWindow 5 r) /\
  total_connections (connectionStats (run (connections ip l) st).1)
    = total_connections (connectionStats st) + Z.of_nat n.
Proof.
  induction l as [|[clock [sid q]] rest IH]; intros n c st Hflag Hw Hc Hlen Hall.
  - simpl in Hlen. assert (n = 0%nat) as -> by lia. simpl.
    split; [done|]. split; [|lia]. rewrite Hw. do 2 f_equal. lia.
  - inversion Hall as [|? ? Hnow Hrest]; subst. simpl in Hnow.
    cbn [connections fmap list_fmap outputs fst snd]. rewrite run_step.
    cbn [step]. destruct n as [|n].
    + assert ((checkRateLimit (clock 0%nat) ip "connection" (userRateLimits st)).1
              = false) as Hno.
      { rewrite (checkRateLimit_full _ _ _ _ c r); try done.
        change (maxLimit "connection") with 5. lia. }
      rewrite on_connection_rejected by done. cbn [fst snd].
      destruct (IH 0%nat c (mkState (userRateLimits st) (connectionStats st)
                                    (redisConnected st) (subscribed st) (sockets st)))
        as (IH1 & IH2 & IH3); try done; [lia|].
      fold (connections ip rest). rewrite IH1. simpl.
      split; [by rewrite drop_0|]. by split.
    + assert (checkRateLimit (clock 0%nat) ip "connection" (userRateLimits st)
              = (true, <[rate_key ip "connection" := mkWindow (c + 1) r]>
                         (userRateLimits st))) as Hyes.
      { apply checkRateLimit_counts; try done.
        change (maxLimit "connection") with 5. lia. }
      rewrite on_connection_admitted by (by rewrite Hyes).
      rewrite Hyes. cbn [fst snd].
      destruct (IH n (c + 1)
                  (mkState (<[rate_key ip "connection" := mkWindow (c + 1) r]>
                              (userRateLimits st))
                           (updateStats "active_connections" 1
                              (updateStats "total_connections" 1 (connectionStats st)))
                           (redisConnected st) (subscribed st)
                           (<[sid := mkSocket ip q None false ∅ true]> (sockets st))))
        as (IH1 & IH2 & IH3); try done.
      * simpl. by rewrite lookup_insert_eq.
      * lia.
      * simpl in Hlen. lia.
      * fold (connections ip rest). rewrite IH1, IH2, IH3. simpl.
        unfold admitted_connection at 1. simpl. rewrite Hflag.
        split; [done|]. split; [done|lia].
Qed.

Lemma connections_from_new ip st (first : Clock * (string * option string))
    (rest : list (Clock * (string * option string))) :
  window_over (first.1 0%nat) ip "connection" (userRateLimits st) ->
  (4 <= length rest)%nat ->
  Forall (fun p : Clock * (string * option string) =>
            p.1 0%nat <= first.1 0%nat + 60000) rest ->
  outputs (connections ip (first :: rest)) st
    = (admitted_connection st <$> take 5 (first :: rest))
      ++ (refused_connection <$> drop 5 (first :: rest)) /\
  userRateLimits (run (connections ip (first :: rest)) st).1 !! rate_key ip "connection"
    = Some (mkWindow 5 (first.1 0%nat + 60000)) /\
  total_connections (connectionStats (run (connections ip (first :: rest)) st).1)
    = total_connections (connectionStats st) + 5.
Proof.
  intros Hover Hlen Hall. destruct first as [clock [sid q]]. cbn [fst snd] in *.
  cbn [connections fmap list_fmap outputs fst snd]. rewrite run_step. cbn [step].
  pose proof (checkRateLimit_new _ _ _ _ Hover) as Hyes.
  rewrite on_connection_admitted by (by rewrite Hyes).
  rewrite Hyes. cbn [fst snd].
  destruct (connections_running ip st (clock 0%nat + 60000) rest 4 1
              (mkState (<[rate_key ip "connection" := mkWindow 1 (clock 0%nat + 60000)]>
                          (userRateLimits st))
                       (updateStats "active_connections" 1
                          (updateStats "total_connections" 1 (connectionStats st)))
                       (redisConnected st) (subscribed st)
                       (<[sid := mkSocket ip q None false ∅ true]> (sockets st))))
    as (H1 & H2 & H3); try done.
  { simpl. by rewrite lookup_insert_eq. }
  fold (connections ip rest). rewrite H1, H2, H3. simpl.
  split; [done|]. split; [done|lia].
Qed.

(** X6: the connection limit per address.  When no window is running for an
    address, of the connections that arrive from it within the next 60
    seconds the first five are admitted and welcomed, whatever their socket
    ids and handshake queries, and every further one is answered with
    error "Connection rate limit exceeded" and a forced disconnect;
    [total_connections] grows by five. *)
Theorem X6_sixth_connection_is_turned_away ip st
    (first : Clock * (string * option string))
    (rest : list (Clock * (string * option string))) :
  window_over (first.1 0%nat) ip "connection" (userRateLimits st) ->
  (4 <= length rest)%nat ->
  Forall (fun p : Clock * (string * option string) =>
            p.1 0%nat <= first.1 0%nat + 60000) rest ->
  outputs (connections ip (first :: rest)) st
    = (admitted_connection st <$> take 5 (first :: rest))
      ++ (refused_connection <$> drop 5 (first :: rest)) /\
  total_connections (connectionStats (run (connections ip (first :: rest)) st).1)
    = total_connections (connectionStats st) + 5.
Proof.
  intros Hover Hlen Hall.
  by destruct (connections_from_new ip st first rest) as (H1 & _ & H3).
Qed.

Lemma step_not_rate_checked clock e st :
  rate_checked e = false -> userRateLimits (step clock e st).1 = userRateLimits st.
Proof.
  destruct e as [sid ip q|sid cb|sid data|sid data|sid|sid|msg]; simpl; try done;
    intros _.
  - by destruct (sockets st !! sid).
  - by destruct (sockets st !! sid).
  - destruct (subscribed st); [|done]. unfold on_bus_message.
    destruct (JSON_parse msg) as [v|]; [|done]. by destruct (JSON_is_null v).
Qed.

Lemma run_not_rate_checked tr : forall st,
  Forall (fun p : Clock * InEvent => rate_checked p.2 = false) tr ->
  userRateLimits (run tr st).1 = userRateLimits st.
Proof.
  induction tr as [|[clock e] rest IH]; intros st Hall; [done|].
  inversion Hall as [|? ? He Hrest]; subst. rewrite run_step.
  rewrite IH by done. by apply step_not_rate_checked.
Qed.

(** X7: the limit counts connections made, not connections open.  After five
    connections from one address, whatever runs of the ping, disconnect,
    socket-error and bus-message handlers follow (all five sockets may have
    disconnected), a further connection from that address that arrives before
    the reset time is turned away. *)
Theorem X7_disconnecting_gives_no_budget_back ip st
    (first : Clock * (string * option string))
    (rest : list (Clock * (string * option string)))
    (others : list (Clock * InEvent)) (clock : Clock) sid q :
  window_over (first.1 0%nat) ip "connection" (userRateLimits st) ->
  length rest = 4%nat ->
  Forall (fun p : Clock * (string * option string) =>
            p.1 0%nat <= first.1 0%nat + 60000) rest ->
  Forall (fun p : Clock * InEvent => rate_checked p.2 = false) others ->
  clock 0%nat <= first.1 0%nat + 60000 ->
  (step clock (Connection sid ip q)
        (run (connections ip (first :: rest) ++ others) st).1).2
    = refused_connection (clock, (sid, q)).
Proof.
  intros Hover Hlen Hall Hothers Hnow.
  destruct (connections_from_new ip st first rest) as (_ & Hfull & _);
    [done|lia|done|].
  rewrite run_app. cbn [step].
  rewrite on_connection_rejected; [done|].
  rewrite run_not_rate_checked by done.
  rewrite (checkRateLimit_full _ _ _ _ 5 (first.1 0%nat + 60000)); try done.
Qed.

(** ** Authentication *)

(** Only the length of the username is looked at. *)
Lemma valid_username_iff (u : option string) :
  valid_username u = true <->
  exists name, u = Some name /\ (3 <= String.length name)%nat.
Proof.
  unfold valid_username. destruct u as [name|].
  2: { split; [done|]. by intros (? & ? & _). }
  split.
  - intros [_ Hlen%Nat.leb_le]%andb_true_iff. eauto.
  - intros (? & [= <-] & Hlen). apply andb_true_iff. split.
    + destruct name; [simpl in Hlen; lia|done].
    + by apply Nat.leb_le.
Qed.

(** X10: when an [authenticate] with a string username succeeds.  For a
    payload that is an object whose username is a string or is missing, the
    socket is sent [authenticated] exactly when the message rate check of the
    connection passes and the username is a string of length at least 3;
    nothing else is looked at: not the token, not whether the socket is
    authenticated already, not the identities of the other sockets.  On
    success the socket takes the username as its identity and joins the room
    [user_<username>] in addition to the rooms it is in. *)
Theorem X10_authenticate_succeeds_exactly_when st clock sid s data :
  sockets st !! sid = Some s ->
  let check := checkRateLimit (clock 0%nat) (handshake_userId sid s) "message"
                              (userRateLimits st) in
  let st' := (step clock (Authenticate sid data) st).1 in
  let out := (step clock (Authenticate sid data) st).2 in
  ((exists name time, Emit sid (authenticated_ev name server_id time) ∈ out) <->
   check.1 = true /\
   exists name, username data = Some name /\ (3 <= String.length name)%nat) /\
  (forall name,
     check.1 = true -> username data = Some name -> (3 <= String.length name)%nat ->
     sockets st'
     = <[sid := mkSocket (handshake_address s) (handshake_query_userId s)
                         (Some name) true ({[ "user_" +:+ name ]} ∪ rooms s)
                         (connected s)]> (sockets st)) /\
  (forall other_token,
     step clock (Authenticate sid (mkAuthData (username data) other_token)) st
     = step clock (Authenticate sid data) st).
Proof.
  intros Hs. cbn [step]. rewrite Hs. split; [|split].
  - destruct (checkRateLimit (clock 0%nat) (handshake_userId sid s) "message"
                             (userRateLimits st)).1 eqn:Hcheck.
    + destruct (valid_username (username data)) eqn:Hname.
      * rewrite on_authenticate_valid by done. simpl. split.
        -- intros _. split; [done|]. by apply valid_username_iff.
        -- intros _. eexists _, _. apply list_elem_of_here.
      * rewrite on_authenticate_invalid by done. simpl. split.
        -- intros (name & time & Hin). apply list_elem_of_singleton in Hin.
           discriminate Hin.
        -- intros [_ Hvalid%valid_username_iff]. congruence.
    + rewrite on_authenticate_refused by done. simpl. split.
      * intros (name & time & Hin). apply list_elem_of_singleton in Hin.
        discriminate Hin.
      * by intros [? _].
  - intros name Hcheck Hname Hlen.
    rewrite on_authenticate_valid; [by rewrite Hname|done|].
    apply valid_username_iff. eauto.
  - intros other_token. unfold on_authenticate. simpl.
    by destruct (checkRateLimit (clock 0%nat) (handshake_userId sid s) "message"
                                (userRateLimits st)) as [[] rl].
Qed.

Lemma step_keeps_authenticated clock e st sid s :
  deliverable e st = true ->
  sockets st !! sid = Some s ->
  exists s', sockets (step clock e st).1 !! sid = Some s' /\
             handshake_userId sid s' = handshake_userId sid s /\
             (authenticated s = true -> authenticated s' = true).
Proof.
  intros Hdel Hs.
  destruct e as [sid0 ip q|sid0 cb|sid0 data|sid0 data|sid0|sid0|msg]; simpl in *.
  - destruct (sockets st !! sid0) as [old|] eqn:Hold; [done|].
    assert (sid0 ≠ sid) by congruence.
    unfold on_connection. break_check; [|by exists s].
    exists s. by rewrite lookup_insert_ne.
  - destruct (sockets st !! sid0); by exists s.
  - destruct (sockets st !! sid0) as [s0|] eqn:Hs0; [|by exists s].
    unfold on_authenticate. break_check; [|by exists s].
    destruct (valid_username (username data)); simpl; [|by exists s].
    destruct (decide (sid0 = sid)) as [-> | Hne].
    + rewrite lookup_insert_eq. eexists. split; [done|].
      assert (s0 = s) as -> by congruence. by split.
    + rewrite lookup_insert_ne by done. by exists s.
  - destruct (sockets st !! sid0) as [s0|] eqn:Hs0; [|by exists s].
    unfold on_claim_code. destruct (authenticated s0); simpl; [|by exists s].
    break_check; by exists s.
  - destruct (sockets st !! sid0) as [s0|] eqn:Hs0; [|by exists s]. simpl.
    destruct (decide (sid0 = sid)) as [-> | Hne].
    + rewrite lookup_insert_eq. eexists. split; [done|].
      assert (s0 = s) as -> by congruence. by split.
    + rewrite lookup_insert_ne by done. by exists s.
  - by exists s.
  - destruct (subscribed st); [|by exists s]. unfold on_bus_message.
    destruct (JSON_parse msg) as [v|]; [|by exists s].
    destruct (JSON_is_null v); by exists s.
Qed.

(** X8: there is no way back from authenticated.  Along every trace in which
    new connections come with socket ids that are not in use, a socket that is
    authenticated stays authenticated (also after a failed authenticate, a
    refused claim or its disconnect), and the user under which its
    authenticate events are rate limited stays the same. *)
Theorem X8_authenticated_for_good tr : forall st sid s,
  transport_ok tr st ->
  sockets st !! sid = Some s ->
  authenticated s = true ->
  exists s', sockets (run tr st).1 !! sid = Some s' /\
             authenticated s' = true /\
             handshake_userId sid s' = handshake_userId sid s.
Proof.
  induction tr as [|[clock e] rest IH]; intros st sid s Hok Hs Hauth.
  - by exists s.
  - destruct Hok as [Hdel Hrest]. rewrite run_step.
    destruct (step_keeps_authenticated clock e st sid s Hdel Hs)
      as (s1 & Hs1 & Hkey & Hkeep).
    destruct (IH _ sid s1 Hrest Hs1 (Hkeep Hauth)) as (s' & Hs' & Hauth' & Hkey').
    exists s'. split; [done|]. split; [done|congruence].
Qed.

Lemma step_socket_named clock e st :
  map_Forall (fun (_ : string) (s : Socket) => socket_named s) (sockets st) ->
  map_Forall (fun (_ : string) (s : Socket) => socket_named s) (sockets (step clock e st).1).
Proof.
  intros Hok.
  destruct e as [sid ip q|sid cb|sid data|sid data|sid|sid|msg]; simpl.
  - unfold on_connection. break_check; [|done].
    apply map_Forall_insert_2; [|done].
    split; simpl; [done|set_solver].
  - by destruct (sockets st !! sid).
  - destruct (sockets st !! sid) as [s|] eqn:Hs; [|done].
    unfold on_authenticate. break_check; [|done].
    destruct (valid_username (username data)) eqn:Hname; simpl; [|done].
    apply valid_username_iff in Hname as (name & Hname & Hlen). rewrite Hname. simpl.
    destruct (Hok sid s Hs) as [_ Hrooms].
    apply map_Forall_insert_2; [|done]. split; simpl.
    + intros ? [= <-]. split; [done|]. split; [done|set_solver].
    + intros room [->%elem_of_singleton | Hin]%elem_of_union; eauto.
  - destruct (sockets st !! sid) as [s|] eqn:Hs; [|done].
    unfold on_claim_code. destruct (authenticated s); simpl; [|done].
    by break_check.
  - destruct (sockets st !! sid) as [s|] eqn:Hs; [|done]. simpl.
    apply map_Forall_insert_2; [|done]. by destruct (Hok sid s Hs).
  - done.
  - destruct (subscribed st); [|done]. unfold on_bus_message.
    destruct (JSON_parse msg) as [v|]; [|done]. by destruct (JSON_is_null v).
Qed.

Lemma run_socket_named tr : forall st,
  map_Forall (fun (_ : string) (s : Socket) => socket_named s) (sockets st) ->
  map_Forall (fun (_ : string) (s : Socket) => socket_named s) (sockets (run tr st).1).
Proof.
  induction tr as [|[clock e] rest IH]; intros st Hok; [done|].
  rewrite run_step. apply IH. by apply step_socket_named.
Qed.

(** X9: identities and rooms go together.  In every reachable state, a
    connected socket that has an identity is authenticated, the identity has
    at least three characters and the socket is in the room
    [user_<identity>]; and every room such a socket is in is the room
    [user_<name>] of a name of at least three characters. *)
Theorem X9_identity_and_rooms st sid s :
  reachable st ->
  sockets st !! sid = Some s ->
  connected s = true ->
  (forall name, userId s = Some name ->
     authenticated s = true /\ (3 <= String.length name)%nat /\
     "user_" +:+ name ∈ rooms s) /\
  (forall room, room ∈ rooms s ->
     exists name, room = "user_" +:+ name /\ (3 <= String.length name)%nat).
Proof.
  intros (bus & start & tr & ->) Hs _.
  eapply (run_socket_named tr (started bus start)); [|done].
  rewrite started_sockets. apply map_Forall_empty.
Qed.

(** ** Messages from the bus *)


Lemma io_emit_only ev st e :
  e ∈ io_emit ev st ->
  exists sid s, e = Emit sid ev /\ sockets st !! sid = Some s /\ connected s = true.
Proof.
  unfold io_emit. intros Hin.
  apply list_elem_of_fmap in Hin as ([sid s] & -> & Hin).
  apply elem_of_map_to_list, map_lookup_filter_Some in Hin as (Hs & Hconn).
  by exists sid, s.
Qed.


Lemma emits_are_not_bonus_codes (f : string * Socket -> string) ev
    (l : list (string * Socket)) :
  (forall to, is_bonus_code (Emit to ev) = false) ->
  Forall (fun e => is_bonus_code e = false)
         ((fun p : string * Socket => Emit (f p) ev) <$> l).
Proof. intros Hev. induction l; simpl; constructor; auto. Qed.

Lemma step_without_subscription clock e st :
  subscribed st = false ->
  subscribed (step clock e st).1 = false /\
  Forall (fun e => is_bonus_code e = false) (step clock e st).2 /\
  codes_broadcasted (connectionStats (step clock e st).1)
    = codes_broadcasted (connectionStats st).
Proof.
  intros Hsub.
  destruct e as [sid ip q|sid cb|sid data|sid data|sid|sid|msg]; simpl.
  - unfold on_connection. break_check; repeat split; by repeat constructor.
  - destruct (sockets st !! sid); simpl; [|by repeat split].
    destruct cb; repeat split; by repeat constructor.
  - destruct (sockets st !! sid) as [s|]; [|by repeat split].
    unfold on_authenticate. break_check; [|repeat split; by repeat constructor].
    destruct (valid_username (username data)); simpl;
      [|repeat split; by repeat constructor].
    destruct (redisConnected st); repeat split; by repeat constructor.
  - destruct (sockets st !! sid) as [s|]; [|by repeat split].
    unfold on_claim_code.
    destruct (authenticated s); simpl; [|repeat split; by repeat constructor].
    break_check; [|repeat split; by repeat constructor].
    repeat split; try done. constructor; [done|].
    by apply (emits_are_not_bonus_codes fst).
  - destruct (sockets st !! sid); by repeat split.
  - by repeat split.
  - rewrite Hsub. by repeat split.
Qed.

Lemma run_without_subscription tr : forall st,
  subscribed st = false ->
  subscribed (run tr st).1 = false /\
  Forall (fun e => is_bonus_code e = false) (run tr st).2 /\
  codes_broadcasted (connectionStats (run tr st).1)
    = codes_broadcasted (connectionStats st).
Proof.
  induction tr as [|[clock e] rest IH]; intros st Hsub; [by repeat split|].
  cbn [run]. destruct (step_without_subscription clock e st Hsub) as (H1 & H2 & H3).
  destruct (step clock e st) as [st1 out1]. cbn [fst snd] in *.
  destruct (IH st1 H1) as (IH1 & IH2 & IH3).
  destruct (run rest st1) as [st2 out2]. cbn [fst snd] in *.
  split; [done|]. split; [by apply Forall_app|congruence].
Qed.

Lemma step_subscribed clock e st : subscribed (step clock e st).1 = subscribed st.
Proof.
  destruct e as [sid ip q|sid cb|sid data|sid data|sid|sid|msg]; simpl.
  - unfold on_connection. by break_check.
  - by destruct (sockets st !! sid).
  - destruct (sockets st !! sid) as [s|]; [|done].
    unfold on_authenticate. break_check; [|done].
    by destruct (valid_username (username data)).
  - destruct (sockets st !! sid) as [s|]; [|done].
    unfold on_claim_code. destruct (authenticated s); simpl; [|done].
    by break_check.
  - by destruct (sockets st !! sid).
  - done.
  - destruct (subscribed st) eqn:Hsub; [|done]. unfold on_bus_message.
    destruct (JSON_parse msg) as [v|]; [|done]. by destruct (JSON_is_null v).
Qed.

Lemma step_start_time clock e st :
  start_time (connectionStats (step clock e st).1) = start_time (connectionStats st).
Proof.
  destruct e as [sid ip q|sid cb|sid data|sid data|sid|sid|msg]; simpl.
  - unfold on_connection. by break_check.
  - by destruct (sockets st !! sid).
  - destruct (sockets st !! sid) as [s|]; [|done].
    unfold on_authenticate. break_check; [|done].
    by destruct (valid_username (username data)).
  - destruct (sockets st !! sid) as [s|]; [|done].
    unfold on_claim_code. destruct (authenticated s); simpl; [|done].
    by break_check.
  - by destruct (sockets st !! sid).
  - done.
  - destruct (subscribed st); [|done]. unfold on_bus_message.
    destruct (JSON_parse msg) as [v|]; [|done]. by destruct (JSON_is_null v).
Qed.

Lemma run_flags tr : forall st,
  redisConnected (run tr st).1 = redisConnected st /\
  subscribed (run tr st).1 = subscribed st /\
  start_time (connectionStats (run tr st).1) = start_time (connectionStats st).
Proof.
  induction tr as [|[clock e] rest IH]; intros st; [done|]. rewrite run_step.
  destruct (IH (step clock e st).1) as (IH1 & IH2 & IH3).
  rewrite IH1, IH2, IH3.
  by rewrite step_redisConnected, step_subscribed, step_start_time.
Qed.

(** X12: a failed subscription goes unnoticed.  When both bus clients connect
    and the subscription to [bonus_codes] is then rejected, the server runs
    with [redis_connected] reported true by [GET /health], while along every
    trace no [bonus_code] event is ever sent and [codes_broadcasted] stays
    0. *)
Theorem X12_failed_subscription_goes_unnoticed bus start tr :
  pub_connect_ok bus = true -> sub_connect_ok bus = true -> subscribe_ok bus = false ->
  startServer bus false (initial_state start) = Running (started bus start) /\
  (forall now, redis_connected (health now (run tr (started bus start)).1) = true) /\
  Forall (fun e => is_bonus_code e = false) (run tr (started bus start)).2 /\
  codes_broadcasted (connectionStats (run tr (started bus start)).1) = 0.
Proof.
  intros Hpub Hsub Hno. split; [done|].
  assert (subscribed (started bus start) = false) as Hoff
    by (unfold started, setupRedisAdapter; by rewrite Hpub, Hsub, Hno).
  destruct (run_without_subscription tr _ Hoff) as (_ & Hout & Hcodes).
  destruct (run_flags tr (started bus start)) as (Hflag & _ & _).
  split; [|split; [done|]].
  - intros now. simpl. rewrite Hflag.
    unfold started, setupRedisAdapter. by rewrite Hpub, Hsub, Hno.
  - rewrite Hcodes. unfold started, setupRedisAdapter. by rewrite Hpub, Hsub, Hno.
Qed.

(** X13: the bus flags are set at start-up and never again.  In every state
    after start-up, [redisConnected] is whether both bus clients connected
    at start-up and the subscription is in place exactly if the three bus
    calls all succeeded; no handler run changes either.  [GET /health] and
    [GET /stats] report that flag, an uptime counted from the start of the
    process, and [/health] reports the status "healthy" whatever the flag;
    the SIGTERM handler quits the two bus clients exactly if the flag is set,
    and exits with code 0. *)
Theorem X13_bus_flags_are_set_at_start_up_only bus start tr now :
  let st := (run tr (started bus start)).1 in
  redisConnected st = pub_connect_ok bus && sub_connect_ok bus /\
  subscribed st = pub_connect_ok bus && sub_connect_ok bus && subscribe_ok bus /\
  redis_connected (health now st) = pub_connect_ok bus && sub_connect_ok bus /\
  redis_status (stats_endpoint now st) = pub_connect_ok bus && sub_connect_ok bus /\
  status (health now st) = "healthy"%string /\
  uptime (health now st) = now - start /\
  report_uptime (stats_endpoint now st) = now - start /\
  on_SIGTERM st
    = (if pub_connect_ok bus && sub_connect_ok bus then [BusQuit; BusQuit] else [],
       Exited 0).
Proof.
  intros st. destruct (run_flags tr (started bus start)) as (Hflag & Hsub & Hstart).
  fold st in Hflag, Hsub, Hstart. unfold on_SIGTERM. simpl.
  rewrite Hflag, Hsub, Hstart. unfold started, setupRedisAdapter.
  by destruct (pub_connect_ok bus), (sub_connect_ok bus), (subscribe_ok bus).
Qed.

(** ** Counters and what is sent *)

Lemma count_effects_app p (a b : list Effect) :
  count_effects p (a ++ b) = count_effects p a + count_effects p b.
Proof. unfold count_effects. rewrite List.filter_app, length_app. lia. Qed.

Lemma count_effects_cons p (e : Effect) (l : list Effect) :
  count_effects p (e :: l) = (if p e then 1 else 0) + count_effects p l.
Proof. unfold count_effects. simpl. destruct (p e); simpl; lia. Qed.

Lemma count_effects_emits p (f : string * Socket -> string) ev
    (l : list (string * Socket)) :
  (forall to, p (Emit to ev) = false) ->
  count_effects p ((fun x : string * Socket => Emit (f x) ev) <$> l) = 0.
Proof.
  intros Hev. unfold count_effects.
  induction l as [|x l IH]; simpl; [done|]. by rewrite Hev.
Qed.

Lemma step_counts_events clock e st :
  total_connections (connectionStats (step clock e st).1)
    = total_connections (connectionStats st) + count_effects is_welcome (step clock e st).2 /\
  messages_sent (connectionStats (step clock e st).1)
    = messages_sent (connectionStats st)
      + count_effects is_claim_received (step clock e st).2.
Proof.
  destruct e as [sid ip q|sid cb|sid data|sid data|sid|sid|msg]; simpl.
  - unfold on_connection. break_check; unfold count_effects; simpl; lia.
  - destruct (sockets st !! sid); simpl; [|unfold count_effects; simpl; lia].
    destruct cb; unfold count_effects; simpl; lia.
  - destruct (sockets st !! sid) as [s|]; [|unfold count_effects; simpl; lia].
    unfold on_authenticate. break_check; [|unfold count_effects; simpl; lia].
    destruct (valid_username (username data)); simpl;
      [|unfold count_effects; simpl; lia].
    destruct (redisConnected st); unfold count_effects; simpl; lia.
  - destruct (sockets st !! sid) as [s|]; [|unfold count_effects; simpl; lia].
    unfold on_claim_code.
    destruct (authenticated s); simpl; [|unfold count_effects; simpl; lia].
    break_check; [|unfold count_effects; simpl; lia].
    rewrite !count_effects_cons.
    unfold broadcast_emit. rewrite !(count_effects_emits _ fst) by done.
    simpl. lia.
  - destruct (sockets st !! sid); unfold count_effects; simpl; lia.
  - unfold count_effects; simpl; lia.
  - destruct (subscribed st); [|unfold count_effects; simpl; lia].
    unfold on_bus_message.
    destruct (JSON_parse msg) as [v|]; [|unfold count_effects; simpl; lia].
    destruct (JSON_is_null v); simpl; [unfold count_effects; simpl; lia|].
    unfold io_emit. rewrite !(count_effects_emits _ fst) by done. lia.
Qed.

(** X14: the counters count what was sent.  Along every trace of handler
    runs, [total_connections] grows by the number of [welcome] events sent and
    [messages_sent] by the number of [claim_received] events sent: a
    connection that is turned away, a refused or unauthenticated claim, an
    authenticate and a [code_claimed] or [bonus_code] broadcast count in
    neither. *)
Theorem X14_counters_count_what_was_sent tr : forall st,
  total_connections (connectionStats (run tr st).1)
    = total_connections (connectionStats st) + count_effects is_welcome (run tr st).2 /\
  messages_sent (connectionStats (run tr st).1)
    = messages_sent (connectionStats st)
      + count_effects is_claim_received (run tr st).2.
Proof.
  induction tr as [|[clock e] rest IH]; intros st.
  { unfold count_effects. simpl. lia. }
  cbn [run]. destruct (step_counts_events clock e st) as [H1 H2].
  destruct (step clock e st) as [st1 out1]. cbn [fst snd] in *.
  destruct (IH st1) as [IH1 IH2].
  destruct (run rest st1) as [st2 out2]. cbn [fst snd] in *.
  rewrite !count_effects_app. lia.
Qed.

Lemma step_counters_order clock e st :
  total_connections (connectionStats st)
    <= total_connections (connectionStats (step clock e st).1) /\
  messages_sent (connectionStats st)
    <= messages_sent (connectionStats (step clock e st).1) /\
  codes_broadcasted (connectionStats st)
    <= codes_broadcasted (connectionStats (step clock e st).1) /\
  active_connections (connectionStats (step clock e st).1)
    - total_connections (connectionStats (step clock e st).1)
    <= active_connections (connectionStats st) - total_connections (connectionStats st).
Proof.
  destruct e as [sid ip q|sid cb|sid data|sid data|sid|sid|msg]; simpl.
  - unfold on_connection. break_check; lia.
  - destruct (sockets st !! sid); simpl; lia.
  - destruct (sockets st !! sid) as [s|]; simpl; [|lia].
    unfold on_authenticate. break_check; [|lia].
    destruct (valid_username (username data)); simpl; lia.
  - destruct (sockets st !! sid) as [s|]; simpl; [|lia].
    unfold on_claim_code. destruct (authenticated s); simpl; [|lia].
    break_check; lia.
  - destruct (sockets st !! sid); simpl; lia.
  - lia.
  - destruct (subscribed st); simpl; [|lia]. unfold on_bus_message.
    destruct (JSON_parse msg) as [v|]; simpl; [|lia].
    destruct (JSON_is_null v); simpl; lia.
Qed.

Lemma run_counters_order tr : forall st,
  total_connections (connectionStats st)
    <= total_connections (connectionStats (run tr st).1) /\
  messages_sent (connectionStats st)
    <= messages_sent (connectionStats (run tr st).1) /\
  codes_broadcasted (connectionStats st)
    <= codes_broadcasted (connectionStats (run tr st).1) /\
  active_connections (connectionStats (run tr st).1)
    - total_connections (connectionStats (run tr st).1)
    <= active_connections (connectionStats st) - total_connections (connectionStats st).
Proof.
  induction tr as [|[clock e] rest IH]; intros st; [simpl; lia|].
  rewrite run_step. pose proof (step_counters_order clock e st).
  pose proof (IH (step clock e st).1). lia.
Qed.

Lemma started_stats bus start :
  connectionStats (started bus start) = mkStats 0 0 0 0 start.
Proof.
  unfold started, setupRedisAdapter.
  by destruct (pub_connect_ok bus), (sub_connect_ok bus), (subscribe_ok bus).
Qed.

(** X15: the counters only go up, and the active connections never exceed
    the total.  In every reachable state [total_connections],
    [messages_sent] and [codes_broadcasted] are not negative and
    [active_connections] is at most [total_connections] (with or without
    repeated disconnect signals); and whatever handler runs follow, the
    three counters do not decrease. *)
Theorem X15_counters_only_go_up st tr :
  reachable st ->
  let st' := (run tr st).1 in
  active_connections (connectionStats st) <= total_connections (connectionStats st) /\
  0 <= total_connections (connectionStats st) /\
  0 <= messages_sent (connectionStats st) /\
  0 <= codes_broadcasted (connectionStats st) /\
  total_connections (connectionStats st) <= total_connections (connectionStats st') /\
  messages_sent (connectionStats st) <= messages_sent (connectionStats st') /\
  codes_broadcasted (connectionStats st) <= codes_broadcasted (connectionStats st').
Proof.
  intros (bus & start & tr0 & ->) st'.
  pose proof (run_counters_order tr0 (started bus start)) as H0.
  rewrite started_stats in H0. simpl in H0.
  pose proof (run_counters_order tr (run tr0 (started bus start)).1) as H1.
  fold st' in H1. lia.
Qed.

(** ** Who is sent what *)

Ltac pick_member H :=
  repeat (apply elem_of_cons in H as [H|H]; [try discriminate H|]);
  try (by apply elem_of_nil in H).

(** X16: what one socket's event sends to the others.  In a handler run for
    an event of socket [sid], whatever is sent to another socket is a
    [code_claimed] event and that socket is connected: answers and errors (of
    the rate limiter, of a failed authentication, of a missing
    authentication) go to the socket that caused them and to no other. *)
Theorem X16_only_code_claimed_goes_to_other_sockets clock e st sid to ev :
  event_socket e = Some sid ->
  Emit to ev ∈ (step clock e st).2 ->
  to ≠ sid ->
  exists claimed claimed_by time s',
    ev = code_claimed claimed claimed_by time /\
    sockets st !! to = Some s' /\ connected s' = true.
Proof.
  intros Hsock Hin Hne.
  destruct e as [sid0 ip q|sid0 cb|sid0 data|sid0 data|sid0|sid0|msg];
    simpl in Hsock; try discriminate Hsock; injection Hsock as ->; simpl in Hin.
  - unfold on_connection in Hin.
    destruct (checkRateLimit (clock 0%nat) ip "connection" (userRateLimits st))
      as [[] rl]; simpl in Hin; pick_member Hin; congruence.
  - destruct (sockets st !! sid); simpl in Hin; [|pick_member Hin].
    destruct cb; pick_member Hin.
  - destruct (sockets st !! sid) as [s|]; simpl in Hin; [|pick_member Hin].
    unfold on_authenticate in Hin.
    destruct (checkRateLimit (clock 0%nat) (handshake_userId sid s) "message"
                             (userRateLimits st)) as [[] rl]; simpl in Hin;
      [|pick_member Hin; congruence].
    destruct (valid_username (username data)); simpl in Hin;
      [|pick_member Hin; congruence].
    destruct (redisConnected st); pick_member Hin; congruence.
  - destruct (sockets st !! sid) as [s|]; simpl in Hin; [|pick_member Hin].
    unfold on_claim_code in Hin.
    destruct (authenticated s); simpl in Hin; [|pick_member Hin; congruence].
    destruct (checkRateLimit (clock 0%nat) (js_string (userId s)) "message"
                             (userRateLimits st)) as [[] rl]; simpl in Hin;
      [|pick_member Hin; congruence].
    apply elem_of_cons in Hin as [Heq|Hin]; [congruence|].
    apply broadcast_emit_others in Hin as (sid' & s' & Heq & _ & Hs' & Hconn).
    injection Heq as -> ->. by eexists _, _, _, s'.
  - destruct (sockets st !! sid); simpl in Hin; pick_member Hin.
  - pick_member Hin.
Qed.

(** X17: an error answer means that nothing was changed.  Whenever a handler
    run sends an [error] event (a connection over the limit, an authenticate
    or a claim over the limit, a claim without authentication), the state
    after the run is the state before it: no counter, no window and no socket
    has changed. *)
Theorem X17_an_error_answer_means_nothing_changed clock e st :
  (exists to message, Emit to (error_ev message) ∈ (step clock e st).2) ->
  (step clock e st).1 = st.
Proof.
  intros (to & message & Hin).
  destruct e as [sid ip q|sid cb|sid data|sid data|sid|sid|msg]; cbn [step] in *.
  - destruct (checkRateLimit (clock 0%nat) ip "connection" (userRateLimits st)).1
      eqn:Hcheck.
    + rewrite on_connection_admitted in Hin by done. simpl in Hin. pick_member Hin.
    + rewrite on_connection_rejected by done. by destruct st.
  - destruct (sockets st !! sid); [|done]. simpl in *. destruct cb; pick_member Hin.
  - destruct (sockets st !! sid) as [s|]; [|done].
    destruct (checkRateLimit (clock 0%nat) (handshake_userId sid s) "message"
                             (userRateLimits st)).1 eqn:Hcheck.
    + destruct (valid_username (username data)) eqn:Hname.
      * rewrite on_authenticate_valid in Hin by done. simpl in Hin.
        destruct (redisConnected st); pick_member Hin.
      * rewrite on_authenticate_invalid in Hin by done. simpl in Hin.
        pick_member Hin.
    + rewrite on_authenticate_refused by done. by destruct st.
  - destruct (sockets st !! sid) as [s|]; [|done].
    destruct (authenticated s) eqn:Hauth.
    + destruct (checkRateLimit (clock 0%nat) (js_string (userId s)) "message"
                               (userRateLimits st)).1 eqn:Hcheck.
      * rewrite on_claim_code_accepted in Hin by done. simpl in Hin.
        apply elem_of_cons in Hin as [Heq|Hin]; [discriminate Heq|].
        apply broadcast_emit_others in Hin as (? & ? & Heq & _). discriminate Heq.
      * rewrite on_claim_code_refused by done. by destruct st.
    + unfold on_claim_code. by rewrite Hauth.
  - destruct (sockets st !! sid); [|done]. simpl in Hin. pick_member Hin.
  - done.
  - destruct (subscribed st); [|done]. unfold on_bus_message in *.
    destruct (JSON_parse msg) as [v|]; [|done].
    destruct (JSON_is_null v); [done|]. simpl in Hin.
    apply io_emit_only in Hin as (? & ? & Heq & _). discriminate Heq.
Qed.

(** ** The statistics *)


(** ** The replay reads ten entries *)

(** X19: only the first ten stored entries matter.  What [sendRecentCodes]
    sends is the same for a stored list and for its first ten entries: an
    entry beyond the tenth is neither sent nor parsed, so one that does not
    parse cannot suppress the replay. *)
Theorem X19_replay_reads_ten_entries (l : list string) sid :
  sendRecentCodes (Some l) sid = sendRecentCodes (Some (take 10 l)) sid.
Proof.
  unfold sendRecentCodes. rewrite !lRange_first_ten. by rewrite take_take.
Qed.


(** ** Claims under one identity, with other events in between *)

Lemma step_key_untouched clock e st key :
  checked_key e st ≠ Some key ->
  userRateLimits (step clock e st).1 !! key = userRateLimits st !! key.
Proof.
  intros Hne.
  destruct e as [sid ip q|sid cb|sid data|sid data|sid|sid|msg]; simpl in *.
  - assert (key ≠ rate_key ip "connection") as Hkey by congruence.
    pose proof (checkRateLimit_other_key (clock 0%nat) ip "connection"
                  (userRateLimits st) key Hkey) as Hsame.
    unfold on_connection.
    destruct (checkRateLimit (clock 0%nat) ip "connection" (userRateLimits st))
      as [ok rl]. by destruct ok.
  - by destruct (sockets st !! sid).
  - destruct (sockets st !! sid) as [s|]; [|done].
    assert (key ≠ rate_key (handshake_userId sid s) "message") as Hkey by congruence.
    pose proof (checkRateLimit_other_key (clock 0%nat) (handshake_userId sid s)
                  "message" (userRateLimits st) key Hkey) as Hsame.
    unfold on_authenticate.
    destruct (checkRateLimit (clock 0%nat) (handshake_userId sid s) "message"
                             (userRateLimits st)) as [ok rl].
    destruct ok; simpl; [|done]. by destruct (valid_username (username data)).
  - destruct (sockets st !! sid) as [s|]; [|done].
    unfold on_claim_code. destruct (authenticated s); simpl; [|done].
    assert (key ≠ rate_key (js_string (userId s)) "message") as Hkey by congruence.
    pose proof (checkRateLimit_other_key (clock 0%nat) (js_string (userId s))
                  "message" (userRateLimits st) key Hkey) as Hsame.
    destruct (checkRateLimit (clock 0%nat) (js_string (userId s)) "message"
                             (userRateLimits st)) as [ok rl].
    by destruct ok.
  - by destruct (sockets st !! sid).
  - done.
  - destruct (subscribed st); [|done]. unfold on_bus_message.
    destruct (JSON_parse msg) as [v|]; [|done]. by destruct (JSON_is_null v).
Qed.

Lemma run_key_untouched key tr : forall st,
  key_untouched key tr st ->
  userRateLimits (run tr st).1 !! key = userRateLimits st !! key.
Proof.
  induction tr as [|[clock e] rest IH]; intros st Hquiet; [done|].
  destruct Hquiet as [Hne Hrest]. rewrite run_step, IH by done.
  by apply step_key_untouched.
Qed.

(** Rounds inside a running window with [n] units left: the claims of the
    first [n] rounds are accepted, those of the others are refused. *)
Lemma rounds_running identity r : forall (l : list Round) (n : nat) c st,
  rounds_of identity l st ->
  userRateLimits st !! rate_key identity "message" = Some (mkWindow c r) ->
  c + Z.of_nat n = 10 ->
  Forall (fun x : Round => x.1.1 0%nat <= r) l ->
  claim_replies l st = expected_replies identity n l st.
Proof.
  induction l as [|[[clock [sid data]] gap] rest IH]; intros n c st Hrounds Hw Hc Hall;
    [done|].
  inversion Hall as [|? ? Hnow Hrest]; subst. cbn [fst snd] in Hnow.
  destruct Hrounds as ((s & Hs & Hflag & Hid) & Hquiet & Hrounds).
  cbn [claim_replies expected_replies]. unfold after_round, round_claim in *.
  cbn [fst snd step] in *. rewrite Hs in *.
  destruct n as [|n].
  - assert ((checkRateLimit (clock 0%nat) (js_string (userId s)) "message"
                            (userRateLimits st)).1 = false) as Hno.
    { rewrite Hid. simpl. rewrite (checkRateLimit_full _ _ _ _ c r); try done.
      change (maxLimit "message") with 10. lia. }
    rewrite on_claim_code_refused in * by done. cbn [fst snd] in *.
    f_equal. apply (IH 0%nat c); try done.
    by rewrite (run_key_untouched _ _ _ Hquiet).
  - assert (checkRateLimit (clock 0%nat) (js_string (userId s)) "message"
                           (userRateLimits st)
            = (true, <[rate_key identity "message" := mkWindow (c + 1) r]>
                       (userRateLimits st))) as Hyes.
    { rewrite Hid. simpl. apply checkRateLimit_counts; try done.
      change (maxLimit "message") with 10. lia. }
    rewrite on_claim_code_accepted in * by (done || by rewrite Hyes).
    rewrite Hyes in *. cbn [fst snd pred] in *. f_equal.
    + unfold accepted_claim_of. simpl. by rewrite Hid.
    + apply (IH n (c + 1)); try done; [|lia].
      rewrite (run_key_untouched _ _ _ Hquiet). simpl. by rewrite lookup_insert_eq.
Qed.

(** Rounds that start a window. *)
Lemma rounds_from_new identity st (first : Round) (rest : list Round) :
  rounds_of identity (first :: rest) st ->
  window_over (first.1.1 0%nat) identity "message" (userRateLimits st) ->
  Forall (fun x : Round => x.1.1 0%nat <= first.1.1 0%nat + 60000) rest ->
  claim_replies (first :: rest) st = expected_replies identity 10 (first :: rest) st.
Proof.
  intros Hrounds Hover Hall. destruct first as [[clock [sid data]] gap].
  cbn [fst snd] in *.
  destruct Hrounds as ((s & Hs & Hflag & Hid) & Hquiet & Hrounds).
  cbn [claim_replies expected_replies]. unfold after_round, round_claim in *.
  cbn [fst snd step] in *. rewrite Hs in *.
  assert (checkRateLimit (clock 0%nat) (js_string (userId s)) "message"
                         (userRateLimits st)
          = (true, <[rate_key identity "message" := mkWindow 1 (clock 0%nat + 60000)]>
                     (userRateLimits st))) as Hyes.
  { rewrite Hid. simpl. by apply checkRateLimit_new. }
  rewrite on_claim_code_accepted in * by (done || by rewrite Hyes).
  rewrite Hyes in *. cbn [fst snd pred] in *. f_equal.
  - unfold accepted_claim_of. simpl. by rewrite Hid.
  - apply (rounds_running identity (clock 0%nat + 60000) rest 9 1); try done.
    rewrite (run_key_untouched _ _ _ Hquiet). simpl. by rewrite lookup_insert_eq.
Qed.

(** The entries of [expected_replies], one by one. *)
Lemma expected_replies_lookup identity : forall (l : list Round) (n : nat) st i x,
  l !! i = Some x ->
  ((i < n)%nat ->
     exists st', expected_replies identity n l st !! i
                 = Some (accepted_claim_of st' identity x.1)) /\
  ((n <= i)%nat ->
     expected_replies identity n l st !! i = Some (refused_claim_of x.1)).
Proof.
  induction l as [|r rest IH]; intros n st i x Hi; [done|].
  destruct i as [|i].
  - injection Hi as ->. cbn [expected_replies]. simpl. split.
    + intros Hlt. destruct n; [lia|]. by eexists.
    + intros Hle. by assert (n = 0%nat) as -> by lia.
  - simpl in Hi. cbn [expected_replies]. simpl.
    destruct (IH (pred n) (after_round r st) i x Hi) as [IH1 IH2]. split.
    + intros Hlt. apply IH1. lia.
    + intros Hle. apply IH2. lia.
Qed.

(** C5, as the code has it: a socket sends eleven [claim_code] events and is
    authenticated under one identity at each of them; no window is running
    for the key [<identity>_message] at the first, the other ten come no
    later than 60 seconds after the first, and from the first claim on no
    other handler run checks the rate limit under that key (whatever else is
    handled in between).  Then the first ten claims are each answered with
    [claim_received] and broadcast, and the eleventh is answered with the one
    event error "Rate limit exceeded - slow down!". *)
Theorem C5_eleven_claims_in_a_new_window st sid identity
    (first : Round) (rest : list Round) :
  Forall (fun x : Round => x.1.2.1 = sid) (first :: rest) ->
  rounds_of identity (first :: rest) st ->
  window_over (first.1.1 0%nat) identity "message" (userRateLimits st) ->
  length rest = 10%nat ->
  Forall (fun x : Round => x.1.1 0%nat <= first.1.1 0%nat + 60000) rest ->
  claim_replies (first :: rest) st = expected_replies identity 10 (first :: rest) st /\
  (forall i x, (i < 10)%nat -> (first :: rest) !! i = Some x ->
     exists st',
       claim_replies (first :: rest) st !! i
       = Some (Emit sid (claim_received (code x.1.2.2) (Some identity) (x.1.1 1%nat)
                                        (auto_claim_or_false x.1.2.2))
                 :: broadcast_emit sid
                      (code_claimed (code x.1.2.2) (Some identity) (x.1.1 2%nat)) st')) /\
  claim_replies (first :: rest) st !! 10%nat
    = Some [Emit sid (error_ev "Rate limit exceeded - slow down!")].
Proof.
  intros Hsid Hrounds Hover Hlen Hall.
  pose proof (rounds_from_new identity st first rest Hrounds Hover Hall) as Heq.
  split; [done|]. rewrite Heq. split.
  - intros i x Hlt Hi.
    destruct (expected_replies_lookup identity (first :: rest) 10 st i x Hi)
      as [Hacc _].
    destruct (Hacc Hlt) as [st' Hst']. exists st'. rewrite Hst'.
    unfold accepted_claim_of.
    assert (x.1.2.1 = sid) as <-; [|done].
    by eapply (proj1 (Forall_lookup _ _) Hsid).
  - destruct (lookup_lt_is_Some_2 (first :: rest) 10) as [x Hx]; [simpl; lia|].
    destruct (expected_replies_lookup identity (first :: rest) 10 st 10 x Hx)
      as [_ Href].
    rewrite Href by lia. unfold refused_claim_of.
    assert (x.1.2.1 = sid) as <-; [|done].
    by eapply (proj1 (Forall_lookup _ _) Hsid).
Qed.

(** X20: one identity, one budget.  The claims of all the sockets that are
    authenticated under one identity are counted in one window: when no
    window is running for that identity at the first of them, the others come
    no later than 60 seconds after it, and from the first claim on no other
    handler run checks the rate limit under the key of the identity, then
    whatever the sockets and whatever else is handled in between, the first
    ten claims are accepted and every further one is refused, also the first
    claim of a socket that has not claimed anything yet. *)
Theorem X20_one_identity_one_budget identity st (first : Round) (rest : list Round) :
  rounds_of identity (first :: rest) st ->
  window_over (first.1.1 0%nat) identity "message" (userRateLimits st) ->
  Forall (fun x : Round => x.1.1 0%nat <= first.1.1 0%nat + 60000) rest ->
  forall i x, (first :: rest) !! i = Some x ->
    ((i < 10)%nat ->
       exists st', claim_replies (first :: rest) st !! i
                   = Some (accepted_claim_of st' identity x.1)) /\
    ((10 <= i)%nat ->
       claim_replies (first :: rest) st !! i = Some (refused_claim_of x.1)).
Proof.
  intros Hrounds Hover Hall i x Hi.
  rewrite (rounds_from_new identity st first rest Hrounds Hover Hall).
  by apply expected_replies_lookup.
Qed.

(** The answers to the claims are what the handlers emit for them in the
    whole trace of the rounds. *)
Lemma outputs_rounds_trace (r : Round) (rest : list Round) st :
  outputs (rounds_trace (r :: rest)) st
    = (step r.1.1 (round_claim r) st).2
        :: outputs r.2 (step r.1.1 (round_claim r) st).1
        ++ outputs (rounds_trace rest) (after_round r st).
Proof. cbn [rounds_trace outputs]. by rewrite outputs_app. Qed.

(** With nothing in between, [claim_replies] is [outputs]. *)
Lemma claim_replies_outputs : forall (l : list (Clock * (string * ClaimData))) st,
  claim_replies ((fun c => (c, [])) <$> l) st = outputs (claims_of l) st.
Proof.
  induction l as [|[clock [sid data]] rest IH]; intros st; [done|].
  cbn [fmap list_fmap claim_replies claims_of outputs]. unfold after_round.
  cbn [fst snd run]. f_equal. apply IH.
Qed.

End Handlers.

Arguments Emit {JSON} to ev.
Arguments ForceDisconnect {JSON} sid.
Arguments PingAck {JSON} sid server_time server.
Arguments CallSendRecentCodes {JSON} sid.
Arguments BusQuit {JSON}.
Arguments welcome {JSON}.
Arguments authenticated_ev {JSON}.
Arguments auth_error {JSON}.
Arguments claim_received {JSON}.
Arguments code_claimed {JSON}.
Arguments bonus_code {JSON}.
Arguments recent_codes {JSON}.
Arguments error_ev {JSON}.

(** ** Worked runs

    In the runs below a parsed JSON value is kept as its text, the empty
    text does not parse, the text "null" is the null value, and [SERVER_ID]
    is not set. *)

Local Abbreviation text_parse :=
  (fun s : string => if String.eqb s "" then None else Some s) (only parsing).
Local Abbreviation text_is_null := (fun s : string => String.eqb s "null") (only parsing).
Local Abbreviation no_bus := (mkBusEnv false false false) (only parsing).
Local Abbreviation as_alice := (mkAuthData (Some "alice") None) (only parsing).
Local Abbreviation as_bob := (mkAuthData (Some "bob") None) (only parsing).
Local Abbreviation too_short := (mkAuthData (Some "ab") None) (only parsing).
Local Abbreviation claim_X1 := (mkClaimData "X1" None) (only parsing).

Lemma C1_fixed_window_budget_witness :
  (allow_seq [0; 1; 2; 3; 4; 60000] "10.0.0.1" "connection" ∅).1
    = [true; true; true; true; true; false] /\
  (checkRateLimit 60001 "10.0.0.1" "connection"
     (allow_seq [0; 1; 2; 3; 4; 60000] "10.0.0.1" "connection" ∅).2).1 = true.
Proof.
  destruct (C1_fixed_window_budget "10.0.0.1" "connection" ∅ 0 [1; 2; 3; 4; 60000] 60001)
    as (_ & _ & Hseq & Hlater & _).
  - exact I.
  - reflexivity.
  - repeat constructor; lia.
  - lia.
  - split; [exact Hseq | exact Hlater].
Defined.

Lemma C2_refusal_consumes_nothing_witness :
  let m := (allow_seq [0; 1; 2; 3; 4] "10.0.0.1" "connection" ∅).2 in
  (checkRateLimit 5 "10.0.0.1" "connection" m).1 = false /\
  (checkRateLimit 5 "10.0.0.1" "connection" m).2 = m.
Proof.
  intros m.
  assert ((checkRateLimit 5 "10.0.0.1" "connection" m).1 = false) as Hno
    by reflexivity.
  split; [exact Hno|].
  exact (proj1 (C2_refusal_consumes_nothing 5 "10.0.0.1" "connection" m Hno)).
Defined.

Lemma C3_rooms_and_claims_need_authentication_witness :
  let st := (run string text_parse text_is_null None
               [(tick 0, Connection "c1" "10.0.0.1" None)] (initial_state 0)).1 in
  step string text_parse text_is_null None (tick 5) (ClaimCode "c1" claim_X1) st
    = (st, [Emit "c1" (error_ev "Authentication required")]).
Proof.
  intros st.
  assert (reachable string text_parse text_is_null None st) as Hreach.
  { exists no_bus, 0, [(tick 0, Connection "c1" "10.0.0.1" None)]. reflexivity. }
  destruct (C3_rooms_and_claims_need_authentication string text_parse text_is_null None st Hreach)
    as (_ & _ & Hclaim).
  apply (Hclaim (tick 5) "c1" (mkSocket "10.0.0.1" None None false ∅ true)); reflexivity.
Defined.

(** A socket that has just connected and has not authenticated is in a
    room: the room of its own id. *)
Lemma C3_counterexample :
  let st := (run string text_parse text_is_null None
               [(tick 0, Connection "c1" "10.0.0.1" None)] (initial_state 0)).1 in
  sockets st !! "c1" = Some (mkSocket "10.0.0.1" None None false ∅ true) /\
  "c1" ∈ transport_rooms "c1" (mkSocket "10.0.0.1" None None false ∅ true).
Proof. split; [reflexivity|]. unfold transport_rooms. simpl. set_solver. Qed.

Lemma C4_claim_acknowledged_and_broadcast_witness :
  let st := (run string text_parse text_is_null None
               [(tick 0, Connection "c1" "10.0.0.1" None);
                (tick 1, Connection "c2" "10.0.0.2" None);
                (tick 2, Authenticate "c1" as_alice);
                (tick 3, Authenticate "c2" as_bob)] (initial_state 0)).1 in
  let out := (step string text_parse text_is_null None (tick 4) (ClaimCode "c1" claim_X1) st).2 in
  Emit "c1" (claim_received "X1" (Some "alice") 4 false) ∈ out /\
  Emit "c2" (code_claimed "X1" (Some "alice") 4) ∈ out.
Proof.
  intros st out.
  assert (reachable string text_parse text_is_null None st) as Hreach.
  { exists no_bus, 0. eexists. reflexivity. }
  destruct (C4_claim_acknowledged_and_broadcast string text_parse text_is_null None st (tick 4) "c1"
              (mkSocket "10.0.0.1" None (Some "alice") true
                        ({[ "user_alice" ]} ∪ ∅) true) claim_X1 Hreach)
    as (identity & Hid & Hack & _ & Hothers & _); try reflexivity.
  simpl in Hid. injection Hid as <-.
  split; [exact Hack|].
  apply (Hothers "c2" (mkSocket "10.0.0.2" None (Some "bob") true
                                ({[ "user_bob" ]} ∪ ∅) true));
    [discriminate | reflexivity | reflexivity].
Defined.

Local Abbreviation eleven_claims :=
  [(tick 2, claim_X1); (tick 3, claim_X1); (tick 4, claim_X1); (tick 5, claim_X1);
   (tick 6, claim_X1); (tick 7, claim_X1); (tick 8, claim_X1); (tick 9, claim_X1);
   (tick 10, claim_X1); (tick 11, claim_X1); (tick 12, claim_X1)] (only parsing).

Local Abbreviation claim_by sid t := ((tick t, (sid%string, claim_X1)), [])
  (only parsing).

Ltac rounds_ok :=
  cbn [rounds_of key_untouched]; repeat split;
  first [ exact I
        | by (vm_compute; discriminate)
        | eexists; split; [vm_compute; reflexivity | split; reflexivity] ].

Lemma C5_eleven_claims_in_a_new_window_witness :
  let st := (run string text_parse text_is_null None
               [(tick 0, Connection "c1" "10.0.0.1" None);
                (tick 0, Connection "c2" "10.0.0.2" None);
                (tick 1, Authenticate "c1" as_alice)] (initial_state 0)).1 in
  claim_replies string text_parse text_is_null None
    (((tick 2, ("c1"%string, claim_X1)),
      [(tick 2, Authenticate "c2" as_bob); (tick 2, Ping "c1" true);
       (tick 2, ClaimCode "c2" claim_X1)])
     :: [claim_by "c1" 3; claim_by "c1" 4; claim_by "c1" 5; claim_by "c1" 6;
         claim_by "c1" 7; claim_by "c1" 8; claim_by "c1" 9; claim_by "c1" 10;
         claim_by "c1" 11; claim_by "c1" 12]) st !! 10%nat
    = Some [Emit "c1" (error_ev "Rate limit exceeded - slow down!")].
Proof.
  intros st.
  apply (C5_eleven_claims_in_a_new_window string text_parse text_is_null None
           st "c1" "alice").
  - repeat constructor.
  - rounds_ok.
  - exact I.
  - reflexivity.
  - repeat constructor; unfold tick; simpl; lia.
Defined.

(** When the handshake [userId] is the username, [authenticate] is charged to
    the key of the claims: eleven claims sent within twelve milliseconds of
    the authentication, and the tenth is already refused. *)
Lemma C5_counterexample :
  let st := (run string text_parse text_is_null None
               [(tick 0, Connection "c1" "10.0.0.1" (Some "alice"));
                (tick 1, Authenticate "c1" as_alice)] (initial_state 0)).1 in
  sockets st !! "c1"
    = Some (mkSocket "10.0.0.1" (Some "alice") (Some "alice") true
                     ({[ "user_alice" ]} ∪ ∅) true) /\
  outputs string text_parse text_is_null None (claims "c1" eleven_claims) st !! 9%nat
    = Some [Emit "c1" (error_ev "Rate limit exceeded - slow down!")].
Proof. split; reflexivity. Qed.

Lemma C6_failed_authenticate_keeps_session_witness :
  let st := (run string text_parse text_is_null None
               [(tick 0, Connection "c1" "10.0.0.1" None);
                (tick 1, Authenticate "c1" as_alice)] (initial_state 0)).1 in
  (step string text_parse text_is_null None (tick 2) (Authenticate "c1" too_short) st).2
    = [Emit "c1" (auth_error "Invalid username")] /\
  sockets (step string text_parse text_is_null None (tick 2) (Authenticate "c1" too_short) st).1
    = sockets st.
Proof.
  intros st.
  destruct (C6_failed_authenticate_keeps_session string text_parse text_is_null None st (tick 2) "c1"
              (mkSocket "10.0.0.1" None (Some "alice") true ({[ "user_alice" ]} ∪ ∅) true)
              too_short "alice" "ab")
    as (Hsame & _ & _ & Hout); try reflexivity; [simpl; lia|].
  split; [exact Hout | exact Hsame].
Defined.

(** The handshake [userId] is the username and nine claims follow the
    authentication: the second [authenticate] of the connection, with a
    username of two characters, is answered with the rate-limit error and
    not with [auth_error]. *)
Lemma C6_counterexample :
  let st := (run string text_parse text_is_null None
               ([(tick 0, Connection "c1" "10.0.0.1" (Some "alice"));
                 (tick 1, Authenticate "c1" as_alice)]
                ++ claims "c1" [(tick 2, claim_X1); (tick 3, claim_X1); (tick 4, claim_X1);
                                (tick 5, claim_X1); (tick 6, claim_X1); (tick 7, claim_X1);
                                (tick 8, claim_X1); (tick 9, claim_X1); (tick 10, claim_X1)])
               (initial_state 0)).1 in
  sockets st !! "c1"
    = Some (mkSocket "10.0.0.1" (Some "alice") (Some "alice") true
                     ({[ "user_alice" ]} ∪ ∅) true) /\
  (step string text_parse text_is_null None (tick 11) (Authenticate "c1" too_short) st).2
    = [Emit "c1" (error_ev "Message rate limit exceeded")].
Proof. split; reflexivity. Qed.

Lemma C7_bus_failure_degrades_to_single_instance_witness :
  startServer no_bus false (initial_state 0) = Running (initial_state 0) /\
  let st := (run string text_parse text_is_null None
               [(tick 0, Connection "c1" "10.0.0.1" None);
                (tick 1, Connection "c2" "10.0.0.2" None);
                (tick 2, Authenticate "c1" as_alice)] (initial_state 0)).1 in
  redis_connected (health None 3 st) = false /\
  Emit "c2" (code_claimed "X1" (Some "alice") 4)
    ∈ (step string text_parse text_is_null None (tick 4) (ClaimCode "c1" claim_X1) st).2.
Proof.
  destruct (C7_bus_failure_degrades_to_single_instance string text_parse text_is_null None no_bus 0)
    as [Hrun Hafter]; [reflexivity|].
  split; [exact Hrun|]. intros st.
  destruct (Hafter [(tick 0, Connection "c1" "10.0.0.1" None);
                    (tick 1, Connection "c2" "10.0.0.2" None);
                    (tick 2, Authenticate "c1" as_alice)])
    as (_ & Hhealth & _ & _ & Hcast).
  split; [exact (Hhealth 3)|].
  apply (Hcast (tick 4) "c1"
           (mkSocket "10.0.0.1" None (Some "alice") true ({[ "user_alice" ]} ∪ ∅) true)
           claim_X1 eq_refl eq_refl eq_refl
           "c2" (mkSocket "10.0.0.2" None None false ∅ true));
    [discriminate | reflexivity | reflexivity].
Defined.

Lemma C8_recent_codes_replay_witness :
  sendRecentCodes string text_parse (Some ["{1}"; "{2}"]) "c1"
    = [Emit "c1" (recent_codes ["{1}"; "{2}"] 2)].
Proof.
  destruct (C8_recent_codes_replay string text_parse text_is_null None) as (_ & _ & _ & Hsend).
  destruct (Hsend "c1" ["{1}"; "{2}"] ["{1}"; "{2}"]) as [Hout _];
    [discriminate | reflexivity | exact Hout].
Defined.

(** The bus is connected, the authentication succeeds and calls
    [sendRecentCodes], and nothing is stored under [recent_codes]: no
    [recent_codes] event is emitted. *)
Lemma C8_counterexample :
  let st := (run string text_parse text_is_null None
               [(tick 0, Connection "c1" "10.0.0.1" None)]
               (started (mkBusEnv true true true) 0)).1 in
  redisConnected st = true /\
  (step string text_parse text_is_null None (tick 1) (Authenticate "c1" as_alice) st).2
    = [Emit "c1" (authenticated_ev "alice" "main" 1); CallSendRecentCodes "c1"] /\
  sendRecentCodes string text_parse (Some []) "c1" = [].
Proof. repeat split; reflexivity. Qed.

Lemma C9_active_connections_accounting_witness :
  let st := (run_delivered string text_parse text_is_null None
               [(tick 0, Connection "c1" "10.0.0.1" None);
                (tick 1, Connection "c2" "10.0.0.1" None)] (started no_bus 0)).1 in
  let st' := (deliver string text_parse text_is_null None (tick 2) (Disconnect "c1") st).1 in
  active_connections (connectionStats st') = 1 /\
  deliver string text_parse text_is_null None (tick 3) (Disconnect "c1") st' = (st', []).
Proof.
  intros st st'.
  destruct (C9_active_connections_accounting string text_parse text_is_null None)
    as (_ & Hdisconnect & _ & _).
  destruct (Hdisconnect st (tick 2) "c1" (mkSocket "10.0.0.1" None None false ∅ true)
              eq_refl eq_refl) as [Hless Hagain].
  split; [exact Hless | exact (Hagain (tick 3))].
Defined.

Lemma C10_authenticate_charged_before_validation_witness :
  let st := (run string text_parse text_is_null None
               [(tick 0, Connection "c1" "10.0.0.1" (Some "bob"))] (initial_state 0)).1 in
  let st' := (step string text_parse text_is_null None (tick 1) (Authenticate "c1" too_short) st).1 in
  units_used 1 (rate_key "bob" "message") (userRateLimits st) = 0 /\
  units_used 1 (rate_key "bob" "message") (userRateLimits st') = 1.
Proof.
  intros st st'.
  destruct (C10_authenticate_charged_before_validation string text_parse text_is_null None st (tick 1) "c1"
              (mkSocket "10.0.0.1" (Some "bob") None false ∅ true) too_short eq_refl)
    as (_ & _ & Hcharged).
  destruct (Hcharged eq_refl eq_refl) as (_ & _ & Hunits).
  split; [reflexivity|]. exact Hunits.
Defined.

(** ** Worked runs for the further properties *)

Local Abbreviation bus_up := (mkBusEnv true true true) (only parsing).
Local Abbreviation alice_c1 :=
  (mkSocket "10.0.0.1" None (Some "alice") true ({[ "user_alice" ]} ∪ ∅) true)
  (only parsing).

Lemma X1_checks_do_not_interfere_witness :
  let m := (allow_seq [0; 1] "alice" "connection" ∅).2 in
  (checkRateLimit 5 "alice" "message" m).2 !! rate_key "alice" "connection"
    = m !! rate_key "alice" "connection".
Proof.
  intros m. apply (X1_checks_do_not_interfere 5 "alice" "message" "alice" "connection" m).
  - by right.
  - by left.
  - discriminate.
Defined.

Lemma X2_stored_counts_within_limits_witness :
  let st := (run string text_parse text_is_null None
               [(tick 0, Connection "c1" "10.0.0.1" None);
                (tick 1, Connection "c2" "10.0.0.1" None)] (initial_state 0)).1 in
  userRateLimits st !! "10.0.0.1_connection"%string = Some (mkWindow 2 60000) /\
  1 <= 2 <= 10.
Proof.
  intros st.
  assert (reachable string text_parse text_is_null None st) as Hreach.
  { exists no_bus, 0. eexists. reflexivity. }
  assert (userRateLimits st !! "10.0.0.1_connection"%string = Some (mkWindow 2 60000))
    as Hlook by reflexivity.
  split; [exact Hlook|].
  exact (proj1 (X2_stored_counts_within_limits string text_parse text_is_null None
                  st _ _ Hreach Hlook)).
Defined.

Lemma X4_remaining_budget_of_a_window_witness :
  (allow_seq [1; 2; 3; 100] "alice" "message"
             {[ rate_key "alice" "message" := mkWindow 8 100 ]}).1
    = [true; true; false; false].
Proof.
  destruct (X4_remaining_budget_of_a_window "alice" "message" 100 [1; 2; 3; 100] 8
              {[ rate_key "alice" "message" := mkWindow 8 100 ]}) as [Hanswers _].
  - reflexivity.
  - change (maxLimit "message") with 10. lia.
  - repeat constructor; lia.
  - exact Hanswers.
Defined.

Lemma X5_two_windows_two_budgets_witness :
  (allow_seq ([0; 1; 2; 3; 60000] ++ [60001; 60001; 60002; 60002; 60003])
             "10.0.0.1" "connection" ∅).1
    = replicate 10 true.
Proof.
  apply (X5_two_windows_two_budgets "10.0.0.1" "connection" ∅
           0 [1; 2; 3; 60000] 60001 [60001; 60002; 60002; 60003]).
  - exact I.
  - reflexivity.
  - repeat constructor; lia.
  - lia.
  - reflexivity.
  - repeat constructor; lia.
Defined.

Local Abbreviation six_connections :=
  [(tick 0, ("c1"%string, @None string)); (tick 1, ("c2"%string, None));
   (tick 2, ("c3"%string, None)); (tick 3, ("c4"%string, None));
   (tick 4, ("c5"%string, None)); (tick 5, ("c6"%string, None))] (only parsing).

Lemma X6_sixth_connection_is_turned_away_witness :
  outputs string text_parse text_is_null None
          (connections "10.0.0.1" six_connections) (initial_state 0) !! 5%nat
    = Some [Emit "c6" (error_ev "Connection rate limit exceeded"); ForceDisconnect "c6"].
Proof.
  destruct (X6_sixth_connection_is_turned_away string text_parse text_is_null None
              "10.0.0.1" (initial_state 0) (tick 0, ("c1"%string, None))
              [(tick 1, ("c2"%string, None)); (tick 2, ("c3"%string, None));
               (tick 3, ("c4"%string, None)); (tick 4, ("c5"%string, None));
               (tick 5, ("c6"%string, None))]) as [Hout _].
  - exact I.
  - simpl. lia.
  - repeat constructor; unfold tick; simpl; lia.
  - rewrite Hout. reflexivity.
Defined.

Lemma X7_disconnecting_gives_no_budget_back_witness :
  (step string text_parse text_is_null None (tick 20) (Connection "c6" "10.0.0.1" None)
        (run string text_parse text_is_null None
             (connections "10.0.0.1"
                [(tick 0, ("c1"%string, None)); (tick 1, ("c2"%string, None));
                 (tick 2, ("c3"%string, None)); (tick 3, ("c4"%string, None));
                 (tick 4, ("c5"%string, None))]
              ++ [(tick 10, Disconnect "c1"); (tick 11, Disconnect "c2");
                  (tick 12, Disconnect "c3"); (tick 13, Disconnect "c4");
                  (tick 14, Disconnect "c5")])
             (initial_state 0)).1).2
    = [Emit "c6" (error_ev "Connection rate limit exceeded"); ForceDisconnect "c6"].
Proof.
  apply (X7_disconnecting_gives_no_budget_back string text_parse text_is_null None
           "10.0.0.1" (initial_state 0) (tick 0, ("c1"%string, None))).
  - exact I.
  - reflexivity.
  - repeat constructor; unfold tick; simpl; lia.
  - repeat constructor.
  - unfold tick. simpl. lia.
Defined.

Lemma X8_authenticated_for_good_witness :
  let st := (run string text_parse text_is_null None
               [(tick 0, Connection "c1" "10.0.0.1" None);
                (tick 1, Authenticate "c1" as_alice)] (initial_state 0)).1 in
  exists s', sockets (run string text_parse text_is_null None
                          [(tick 2, Authenticate "c1" too_short);
                           (tick 3, Disconnect "c1")] st).1 !! "c1" = Some s' /\
             authenticated s' = true.
Proof.
  intros st.
  destruct (X8_authenticated_for_good string text_parse text_is_null None
              [(tick 2, Authenticate "c1" too_short); (tick 3, Disconnect "c1")]
              st "c1" alice_c1) as (s' & Hs' & Hauth & _).
  - simpl. repeat split; reflexivity.
  - reflexivity.
  - reflexivity.
  - exists s'. split; [exact Hs' | exact Hauth].
Defined.

Lemma X9_identity_and_rooms_witness :
  let st := (run string text_parse text_is_null None
               [(tick 0, Connection "c1" "10.0.0.1" None);
                (tick 1, Authenticate "c1" as_alice)] (initial_state 0)).1 in
  sockets st !! "c1" = Some alice_c1 /\
  "user_" +:+ "alice" ∈ rooms alice_c1.
Proof.
  intros st.
  assert (reachable string text_parse text_is_null None st) as Hreach.
  { exists no_bus, 0. eexists. reflexivity. }
  assert (sockets st !! "c1" = Some alice_c1) as Hs by reflexivity.
  split; [exact Hs|].
  destruct (X9_identity_and_rooms string text_parse text_is_null None
              st "c1" alice_c1 Hreach Hs eq_refl) as [Hnamed _].
  destruct (Hnamed "alice" eq_refl) as (_ & _ & Hroom). exact Hroom.
Defined.

Lemma X10_authenticate_succeeds_exactly_when_witness :
  let st := (run string text_parse text_is_null None
               [(tick 0, Connection "c1" "10.0.0.1" None)] (initial_state 0)).1 in
  exists name time,
    Emit "c1" (authenticated_ev name "main" time)
      ∈ (step string text_parse text_is_null None (tick 1)
              (Authenticate "c1" (mkAuthData (Some "bob") (Some "no such token"))) st).2.
Proof.
  intros st.
  destruct (X10_authenticate_succeeds_exactly_when string text_parse text_is_null None
              st (tick 1) "c1" (mkSocket "10.0.0.1" None None false ∅ true)
              (mkAuthData (Some "bob") (Some "no such token")) eq_refl)
    as [Hiff _].
  apply Hiff. split; [reflexivity|]. exists "bob". split; [reflexivity|simpl; lia].
Defined.


Lemma X12_failed_subscription_goes_unnoticed_witness :
  let st := (run string text_parse text_is_null None
               [(tick 0, Connection "c1" "10.0.0.1" None);
                (tick 1, BusMessage "{1}")] (started (mkBusEnv true true false) 0)).1 in
  redis_connected (health None 2 st) = true /\
  codes_broadcasted (connectionStats st) = 0.
Proof.
  intros st.
  destruct (X12_failed_subscription_goes_unnoticed string text_parse text_is_null None
              (mkBusEnv true true false) 0
              [(tick 0, Connection "c1" "10.0.0.1" None); (tick 1, BusMessage "{1}")]
              eq_refl eq_refl eq_refl) as (_ & Hhealth & _ & Hcodes).
  split; [exact (Hhealth 2) | exact Hcodes].
Defined.

Lemma X15_counters_only_go_up_witness :
  let st := (run string text_parse text_is_null None
               [(tick 0, Connection "c1" "10.0.0.1" None);
                (tick 1, Disconnect "c1"); (tick 2, Disconnect "c1")]
               (initial_state 0)).1 in
  active_connections (connectionStats st) <= total_connections (connectionStats st).
Proof.
  intros st.
  assert (reachable string text_parse text_is_null None st) as Hreach.
  { exists no_bus, 0. eexists. reflexivity. }
  exact (proj1 (X15_counters_only_go_up string text_parse text_is_null None st []
                  Hreach)).
Defined.

Lemma X16_only_code_claimed_goes_to_other_sockets_witness :
  let st := (run string text_parse text_is_null None
               [(tick 0, Connection "c1" "10.0.0.1" None);
                (tick 1, Connection "c2" "10.0.0.2" None);
                (tick 2, Authenticate "c1" as_alice)] (initial_state 0)).1 in
  exists claimed claimed_by time s',
    code_claimed (JSON := string) "X1" (Some "alice") 4
      = code_claimed claimed claimed_by time /\
    sockets st !! "c2" = Some s' /\ connected s' = true.
Proof.
  intros st.
  apply (X16_only_code_claimed_goes_to_other_sockets string text_parse text_is_null None
           (tick 4) (ClaimCode "c1" claim_X1) st "c1" "c2").
  - reflexivity.
  - vm_compute. apply list_elem_of_further, list_elem_of_here.
  - discriminate.
Defined.

Lemma X17_an_error_answer_means_nothing_changed_witness :
  let st := (run string text_parse text_is_null None
               [(tick 0, Connection "c1" "10.0.0.1" None)] (initial_state 0)).1 in
  (step string text_parse text_is_null None (tick 5) (ClaimCode "c1" claim_X1) st).1 = st.
Proof.
  intros st.
  apply (X17_an_error_answer_means_nothing_changed string text_parse text_is_null None).
  exists "c1", "Authentication required"%string. apply list_elem_of_here.
Defined.


Local Abbreviation x20_first :=
  ((tick 2, ("c1"%string, claim_X1)), [(tick 2, Ping "c2" true)]) (only parsing).
Local Abbreviation x20_rest :=
  [claim_by "c1" 2; claim_by "c1" 2; claim_by "c1" 2; claim_by "c1" 2;
   claim_by "c1" 2; claim_by "c1" 2; claim_by "c1" 2; claim_by "c1" 2;
   claim_by "c1" 2; claim_by "c2" 3] (only parsing).

Lemma X20_one_identity_one_budget_witness :
  let st := (run string text_parse text_is_null None
               [(tick 0, Connection "c1" "10.0.0.1" None);
                (tick 0, Connection "c2" "10.0.0.2" None);
                (tick 1, Authenticate "c1" as_alice);
                (tick 1, Authenticate "c2" as_alice)] (initial_state 0)).1 in
  claim_replies string text_parse text_is_null None (x20_first :: x20_rest) st !! 10%nat
    = Some [Emit "c2" (error_ev "Rate limit exceeded - slow down!")].
Proof.
  intros st.
  refine (proj2 (X20_one_identity_one_budget string text_parse text_is_null None
                   "alice" st x20_first x20_rest _ _ _ 10%nat (claim_by "c2" 3)
                   eq_refl) _).
  - rounds_ok.
  - exact I.
  - repeat constructor; unfold tick; simpl; lia.
  - lia.
Defined.

End Server.
